(** * Chat subsystem of the marketplace backend (src/routes/chat.js)

    A shallow embedding of the content filter, of the conversation and
    message tables it writes to (src/db/schema.sql) and of the three chat
    handlers, followed by the properties of the chat core.

    JavaScript strings are sequences of UTF-16 code units; a code unit is a
    number [N] and a string a [list N].  The regular expressions of the
    filter are run by a backtracking matcher written in the continuation
    style of the ECMAScript definition of pattern matching. *)

From Stdlib Require Import NArith ZArith Ascii String DecimalString.
From stdpp Require Import base option list sorting gmap.

Local Open Scope N_scope.

(** ** Strings *)

Abbreviation jsstring := (list N).

(** The code units of an ASCII literal. *)
Definition js (s : string) : jsstring :=
  map N_of_ascii (list_ascii_of_string s).

Definition in_range (lo hi c : N) : bool := (lo <=? c) && (c <=? hi).

Definition is_digit (c : N) : bool := in_range 48 57 c.
Definition is_upper (c : N) : bool := in_range 65 90 c.
Definition is_lower (c : N) : bool := in_range 97 122 c.
Definition is_alpha (c : N) : bool := is_upper c || is_lower c.
Definition is_alnum (c : N) : bool := is_alpha c || is_digit c.

(** [\w]: letters, digits and the underscore. *)
Definition is_word (c : N) : bool := is_alnum c || (c =? 95).

(** [\s], which is also what [String.prototype.trim] strips: the WhiteSpace
    and LineTerminator code points of ECMAScript. *)
Definition is_space (c : N) : bool :=
  in_range 9 13 c || (c =? 32) || (c =? 160) || (c =? 5760)
  || in_range 8192 8202 c || (c =? 8232) || (c =? 8233) || (c =? 8239)
  || (c =? 8287) || (c =? 12288) || (c =? 65279).

Fixpoint drop_while (p : N → bool) (s : jsstring) : jsstring :=
  match s with
  | c :: s' => if p c then drop_while p s' else s
  | [] => []
  end.

Definition trim_start (s : jsstring) : jsstring := drop_while is_space s.
Definition trim_end (s : jsstring) : jsstring :=
  reverse (drop_while is_space (reverse s)).

(** [message.trim()] *)
Definition trim (s : jsstring) : jsstring := trim_end (trim_start s).

(** Canonicalisation of a code unit under the [i] flag (without [u]): an
    ASCII letter goes to its upper case; a code unit from 128 on is never
    sent below 128, so against the ASCII characters of the patterns of this
    file only the ASCII letters fold. *)
Definition canonicalize (c : N) : N := if is_lower c then c - 32 else c.

Definition ci_eq (a c : N) : bool := canonicalize a =? canonicalize c.

(** Comparison of strings by code units, the order of [<] on strings and of
    [Array.prototype.sort] without a comparator. *)
Fixpoint str_lt (a b : jsstring) : bool :=
  match a, b with
  | _, [] => false
  | [], _ :: _ => true
  | x :: a', y :: b' => (x <? y) || ((x =? y) && str_lt a' b')
  end.

(** ** Regular expressions *)

(** The constructs the four patterns of the filter use.  A quantifier with
    bounds is only ever applied to a character class ([Rep]); [?] is applied
    to classes and to one group ([Opt]). *)
Inductive regex : Type :=
| Empty
| Char (p : N → bool)
| Seq (r1 r2 : regex)
| Alt (r1 r2 : regex)
| Opt (r : regex)
| Rep (p : N → bool) (lo : nat) (hi : option nat)
| WordB.

(** A continuation receives the code unit before the current position (for
    [\b]) and the rest of the input; the result is the input left after the
    whole match. *)
Definition cont : Type := option N → jsstring → option jsstring.

Definition can_take (hi : option nat) : bool :=
  match hi with Some O => false | _ => true end.

Definition one_less (hi : option nat) : option nat :=
  match hi with Some n => Some (pred n) | None => None end.

(** Greedy [class{lo,hi}]: take one more code unit while allowed, and give
    it back when the continuation fails. *)
Fixpoint rep (p : N → bool) (lo : nat) (hi : option nat) (k : cont)
    (prev : option N) (s : jsstring) {struct s} : option jsstring :=
  let stop := match lo with O => k prev s | S _ => None end in
  match s with
  | [] => stop
  | c :: s' =>
      if p c && can_take hi then
        match rep p (pred lo) (one_less hi) k (Some c) s' with
        | Some rest => Some rest
        | None => stop
        end
      else stop
  end.

Definition is_word_at (o : option N) : bool :=
  match o with Some c => is_word c | None => false end.

Fixpoint matcher (r : regex) (k : cont) (prev : option N) (s : jsstring)
    {struct r} : option jsstring :=
  match r with
  | Empty => k prev s
  | Char p =>
      match s with
      | c :: s' => if p c then k (Some c) s' else None
      | [] => None
      end
  | Seq r1 r2 => matcher r1 (matcher r2 k) prev s
  | Alt r1 r2 =>
      match matcher r1 k prev s with
      | Some rest => Some rest
      | None => matcher r2 k prev s
      end
  | Opt r1 =>
      (* an iteration that consumed nothing is refused *)
      let k1 : cont := fun prev' s' =>
        if Nat.eqb (length s') (length s) then None else k prev' s' in
      match matcher r1 k1 prev s with
      | Some rest => Some rest
      | None => k prev s
      end
  | Rep p lo hi => rep p lo hi k prev s
  | WordB =>
      if xorb (is_word_at prev) (is_word_at (head s)) then k prev s else None
  end.

(** Number of code units of the match that starts at the head of [s]. *)
Definition match_len (r : regex) (prev : option N) (s : jsstring) : option nat :=
  match matcher r (fun _ rest => Some rest) prev s with
  | Some rest => Some (length s - length rest)%nat
  | None => None
  end.

(** [s.replace(r, by)] for a global [r] and a replacement without [$]:
    every start position is tried from left to right, a match is replaced
    and the scan resumes behind it ([skip] counts the code units of the
    match still to pass); an empty match advances by one code unit. *)
Fixpoint replace_from (r : regex) (by_ : jsstring) (prev : option N)
    (s : jsstring) (skip : nat) {struct s} : jsstring :=
  match s with
  | [] =>
      match skip, match_len r prev [] with
      | O, Some _ => by_
      | _, _ => []
      end
  | c :: s' =>
      match skip with
      | S n => replace_from r by_ (Some c) s' n
      | O =>
          match match_len r prev s with
          | Some (S n) => by_ ++ replace_from r by_ (Some c) s' n
          | Some O => by_ ++ c :: replace_from r by_ (Some c) s' O
          | None => c :: replace_from r by_ (Some c) s' O
          end
      end
  end.

Definition replace (r : regex) (by_ : jsstring) (s : jsstring) : jsstring :=
  replace_from r by_ None s O.

Definition cat (rs : list regex) : regex := foldr Seq Empty rs.

Definition lit (c : N) : regex := Char (N.eqb c).

(** A literal word under the [i] flag. *)
Definition word_ci (w : jsstring) : regex := cat (map (fun a => Char (ci_eq a)) w).

(** ** The content filter *)

Module Filter.

(** [[A-Za-z0-9._%+-]] *)
Definition local_part (c : N) : bool :=
  is_alnum c || (c =? 46) || (c =? 95) || (c =? 37) || (c =? 43) || (c =? 45).

(** [[A-Za-z0-9.-]] *)
Definition domain_part (c : N) : bool := is_alnum c || (c =? 46) || (c =? 45).

(** [[A-Z|a-z]]: the bar is a member of the class. *)
Definition tld_part (c : N) : bool := is_alpha c || (c =? 124).

(** [[-.\s]] *)
Definition separator (c : N) : bool := (c =? 45) || (c =? 46) || is_space c.

(** [[a-zA-Z0-9._]] *)
Definition handle_part (c : N) : bool := is_alnum c || (c =? 46) || (c =? 95).

(** [/\b[A-Za-z0-9._%+-]+@[A-Za-z0-9.-]+\.[A-Z|a-z]{2,}\b/g] *)
Definition emailRegex : regex :=
  cat [WordB; Rep local_part 1 None; lit 64; Rep domain_part 1 None; lit 46;
       Rep tld_part 2 None; WordB].

(** [/(\+?\d{1,4}[-.\s]?)?\(?\d{1,4}\)?[-.\s]?\d{1,4}[-.\s]?\d{1,9}/g] *)
Definition phoneRegex : regex :=
  cat [Opt (cat [Opt (lit 43); Rep is_digit 1 (Some 4%nat); Opt (Char separator)]);
       Opt (lit 40); Rep is_digit 1 (Some 4%nat); Opt (lit 41);
       Opt (Char separator); Rep is_digit 1 (Some 4%nat);
       Opt (Char separator); Rep is_digit 1 (Some 9%nat)].

Definition keywords : list jsstring :=
  [js "whatsapp"; js "wa.me"; js "t.me"; js "telegram"].

(** [/whatsapp|wa\.me|t\.me|telegram/gi] *)
Definition whatsappRegex : regex :=
  Alt (word_ci (js "whatsapp"))
    (Alt (word_ci (js "wa.me")) (Alt (word_ci (js "t.me")) (word_ci (js "telegram")))).

(** [/@[a-zA-Z0-9._]+/g] *)
Definition socialRegex : regex := cat [lit 64; Rep handle_part 1 None].

(** The mask token ['*****']. *)
Definition mask : jsstring := js "*****".

Definition filterSensitiveContent (message : jsstring) : jsstring :=
  let filteredMessage := message in
  let filteredMessage := replace emailRegex mask filteredMessage in
  let filteredMessage := replace phoneRegex mask filteredMessage in
  let filteredMessage := replace whatsappRegex mask filteredMessage in
  let filteredMessage := replace socialRegex mask filteredMessage in
  filteredMessage.

End Filter.

Import Filter.

(** ** Tables (src/db/schema.sql) *)

(** Timestamps are instants, as milliseconds since the epoch. *)
Abbreviation timestamp := Z.

Record user_row : Type := UserRow {
  uid : jsstring;
  email : option jsstring;
  role : jsstring;
  display_name : option jsstring }.

(** One entry of [participant_details]. *)
Record details : Type := Details {
  name : option jsstring;
  d_role : jsstring }.

Record conversation_row : Type := ConversationRow {
  c_id : jsstring;
  c_participants : list jsstring;
  c_participant_details : gmap jsstring details;
  c_last_message : option jsstring;
  c_last_message_time : option timestamp;
  c_last_message_sender : option jsstring;
  c_created_at : timestamp;
  c_updated_at : timestamp }.

Record message_row : Type := MessageRow {
  m_id : jsstring;
  m_conversation_id : jsstring;
  m_sender_id : jsstring;
  m_sender_name : option jsstring;
  m_message : jsstring;
  m_timestamp : timestamp;
  m_is_filtered : bool }.

(** The database: [users] and [conversations] by primary key, [messages] in
    the order of insertion. *)
Record db : Type := Db {
  users : gmap jsstring user_row;
  conversations : gmap jsstring conversation_row;
  messages : list message_row }.

(** [INSERT INTO conversations]: refused on a duplicate primary key. *)
Definition insert_conversation (row : conversation_row) (st : db) : option db :=
  match conversations st !! c_id row with
  | Some _ => None
  | None => Some (Db (users st) (<[c_id row := row]> (conversations st)) (messages st))
  end.

(** *** Text on its way to the database

    The driver sends a string parameter as UTF-8: a surrogate code unit
    that is not part of a pair goes out as U+FFFD, and that is what the
    column holds and what is read back.  The server refuses a text with the
    code unit 0, and the query throws. *)

Definition is_high_surrogate (c : N) : bool := in_range 55296 56319 c.
Definition is_low_surrogate (c : N) : bool := in_range 56320 57343 c.

(** The string with every unpaired surrogate replaced by U+FFFD. *)
Fixpoint to_well_formed (s : jsstring) : jsstring :=
  match s with
  | [] => []
  | c :: s' =>
      if is_high_surrogate c then
        match s' with
        | d :: s'' =>
            if is_low_surrogate d then c :: d :: to_well_formed s''
            else 65533 :: to_well_formed s'
        | [] => [65533]
        end
      else if is_low_surrogate c then 65533 :: to_well_formed s'
      else c :: to_well_formed s'
  end.

(** A text parameter as the table receives it; [None] when the query
    throws. *)
Definition pg_text (s : jsstring) : option jsstring :=
  if existsb (N.eqb 0) s then None else Some (to_well_formed s).

(** A parameter that is a string or [null]. *)
Definition pg_text_or_null (o : option jsstring) : option (option jsstring) :=
  match o with
  | Some s => Some <$> pg_text s
  | None => Some None
  end.

(** [INSERT INTO messages] with the values of [row] as parameters: refused
    when a text parameter is refused and on a duplicate primary key. *)
Definition insert_message (row : message_row) (st : db) : option db :=
  id ← pg_text (m_id row);
  conversation_id ← pg_text (m_conversation_id row);
  sender_id ← pg_text (m_sender_id row);
  sender_name ← pg_text_or_null (m_sender_name row);
  text ← pg_text (m_message row);
  if existsb (fun m => bool_decide (m_id m = id)) (messages st) then None
  else Some (Db (users st) (conversations st)
               (messages st ++
                  [MessageRow id conversation_id sender_id sender_name text
                     (m_timestamp row) (m_is_filtered row)])).

(** [UPDATE conversations SET last_message = $1, last_message_time = $2,
    last_message_sender = $3, updated_at = $2 WHERE id = $4] *)
Definition update_last_message (text : jsstring) (time : timestamp)
    (sender : jsstring) (cid : jsstring) (st : db) : option db :=
  text ← pg_text text;
  sender ← pg_text sender;
  cid ← pg_text cid;
  let set (row : conversation_row) :=
    ConversationRow (c_id row) (c_participants row) (c_participant_details row)
      (Some text) (Some time) (Some sender) (c_created_at row) time in
  Some (Db (users st) (alter set cid (conversations st)) (messages st)).

(** [SELECT ... FROM conversations WHERE id = $1]: [None] when the query
    throws, [Some None] when no row has the identifier. *)
Definition select_conversation (st : db) (id : jsstring)
    : option (option conversation_row) :=
  id ← pg_text id;
  Some (conversations st !! id).

(** ** Requests and responses *)

(** [req.user], as the authentication middleware builds it from the user's
    row; [fullName] is read by the handlers and left unset by the
    middleware. *)
Record req_user : Type := ReqUser {
  ru_uid : jsstring;
  ru_email : option jsstring;
  ru_role : jsstring;
  ru_displayName : option jsstring;
  ru_fullName : option jsstring }.

Definition req_user_of_row (row : user_row) : req_user :=
  ReqUser (uid row) (email row) (role row) (display_name row) None.

(** The conversation object of the responses. *)
Record conversation : Type := Conversation {
  id : jsstring;
  participants : list jsstring;
  participantDetails : gmap jsstring details;
  lastMessage : option jsstring;
  lastMessageTime : option timestamp;
  createdAt : timestamp;
  updatedAt : timestamp }.

Definition conversation_of_row (row : conversation_row) : conversation :=
  Conversation (c_id row) (c_participants row) (c_participant_details row)
    (c_last_message row) (c_last_message_time row)
    (c_created_at row) (c_updated_at row).

(** The message object of the responses. *)
Record message : Type := Message {
  msg_id : jsstring;
  senderId : jsstring;
  senderName : option jsstring;
  msg_text : jsstring;
  msg_timestamp : timestamp;
  isFiltered : bool }.

Definition message_of_row (row : message_row) : message :=
  Message (m_id row) (m_sender_id row) (m_sender_name row) (m_message row)
    (m_timestamp row) (m_is_filtered row).

(** A response: a status with a JSON body, or a status with an error
    message. *)
Inductive response (A : Type) : Type :=
| Json (status : Z) (body : A)
| Fail (status : Z) (error : string).
Arguments Json {A} status body.
Arguments Fail {A} status error.

Definition ValidationError_participant {A} : response A :=
  Fail 400 "Participant ID is required".
Definition SelfConversation {A} : response A :=
  Fail 400 "Cannot create conversation with yourself".
Definition NotFound_participant {A} : response A :=
  Fail 404 "Participant not found".
Definition InvalidPairing {A} : response A :=
  Fail 403 "Chat is only allowed between brands and influencers/UGC creators".
Definition ValidationError_message {A} : response A :=
  Fail 400 "Message content is required".
Definition NotFound_conversation {A} : response A :=
  Fail 404 "Conversation not found".
Definition Forbidden {A} : response A :=
  Fail 403 "You are not a participant in this conversation".

(** ** JavaScript helpers *)

(** [a || b] on values that are strings, [null] or [undefined]. *)
Definition js_or (a b : option jsstring) : option jsstring :=
  match a with
  | Some (_ :: _) => a
  | _ => b
  end.

(** [array.includes(x)] *)
Definition includes (l : list jsstring) (x : jsstring) : bool :=
  existsb (fun y => bool_decide (y = x)) l.

Fixpoint sort_insert (x : jsstring) (l : list jsstring) : list jsstring :=
  match l with
  | [] => [x]
  | y :: l' => if str_lt y x then y :: sort_insert x l' else x :: l
  end.

(** [array.sort()] on strings: ascending by code units, stable. *)
Definition sort (l : list jsstring) : list jsstring := foldr sort_insert [] l.

(** [array.join(sep)] *)
Fixpoint join (sep : jsstring) (l : list jsstring) : jsstring :=
  match l with
  | [] => []
  | [x] => x
  | x :: l' => x ++ sep ++ join sep l'
  end.

(** Decimal digits of an integer, as in a template literal. *)
Definition decimal (z : Z) : jsstring := js (NilZero.string_of_int (Z.to_int z)).

Definition digit_value (radix : N) (c : N) : option N :=
  let v := if is_digit c then Some (c - 48)
           else if is_lower c then Some (c - 87)
           else if is_upper c then Some (c - 55)
           else None in
  match v with
  | Some d => if d <? radix then Some d else None
  | None => None
  end.

Fixpoint parse_digits (radix : N) (acc : option N) (s : jsstring) : option N :=
  match s with
  | [] => acc
  | c :: s' =>
      match digit_value radix c with
      | Some d => parse_digits radix (Some (default 0 acc * radix + d)) s'
      | None => acc
      end
  end.

(** The values [parseInt] gives: NaN, an infinity, or a double that is an
    integer (the sign of zero is not kept: it prints as 0). *)
Inductive number : Type :=
| NaN
| Infinity (negative : bool)
| Finite (z : Z).

(** The double nearest to a natural number, ties to the even significand;
    from 2^1024 - 2^970 on the result is infinite. *)
Definition round_to_double (n : N) : option N :=
  let bits := N.size n in
  let r :=
    if bits <=? 53 then n
    else
      let e := bits - 53 in
      let q := N.shiftr n e in
      let rest := n - N.shiftl q e in
      let half := N.shiftl 1 (e - 1) in
      let q := if (half <? rest) || ((rest =? half) && N.odd q) then q + 1 else q in
      N.shiftl q e in
  if N.size r <=? 1024 then Some r else None.

(** [parseInt(s)]: leading white space, a sign, [0x] for radix 16, then the
    longest run of digits, read as a double. *)
Definition parseInt (s : jsstring) : number :=
  let s := trim_start s in
  let '(neg, s) := match s with
                   | 45 :: s' => (true, s')
                   | 43 :: s' => (false, s')
                   | _ => (false, s)
                   end in
  let '(radix, s) := match s with
                     | 48 :: 120 :: s' => (16, s')
                     | 48 :: 88 :: s' => (16, s')
                     | _ => (10, s)
                     end in
  match parse_digits radix None s with
  | Some n =>
      match round_to_double n with
      | Some d => Finite (if neg : bool then - Z.of_N d else Z.of_N d)%Z
      | None => Infinity neg
      end
  | None => NaN
  end.

(** ** The handlers *)

Module Chat.

Definition brand : jsstring := js "brand".
Definition influencer : jsstring := js "influencer".
Definition ugc_creator : jsstring := js "ugc_creator".

Definition validCombinations (currentUserRole participantRole : jsstring) : list bool :=
  [ bool_decide (currentUserRole = brand)
      && includes [influencer; ugc_creator] participantRole;
    includes [influencer; ugc_creator] currentUserRole
      && bool_decide (participantRole = brand) ].

(** [[currentUserId, participantId].sort().join('_')] *)
Definition conversationId_of (currentUserId participantId : jsstring) : jsstring :=
  join (js "_") (sort [currentUserId; participantId]).

(** POST /conversations.  [now1] and [now2] are the two readings of the
    clock for [createdAt] and [updatedAt]. *)
Definition createOrGetConversation (st : db) (user : req_user)
    (participantId : option jsstring) (now1 now2 : timestamp)
    : response (jsstring * conversation) * db :=
  let currentUserId := ru_uid user in
  match participantId with
  | None | Some [] => (ValidationError_participant, st)
  | Some participantId =>
    if bool_decide (participantId = currentUserId) then (SelfConversation, st)
    else
      match users st !! participantId with
      | None => (NotFound_participant, st)
      | Some participantData =>
        let currentUserRole := ru_role user in
        let participantRole := role participantData in
        if negb (existsb (fun combo => combo)
                   (validCombinations currentUserRole participantRole))
        then (InvalidPairing, st)
        else
          let conversationId := conversationId_of currentUserId participantId in
          match conversations st !! conversationId with
          | Some row => (Json 200 (conversationId, conversation_of_row row), st)
          | None =>
            let conversationData :=
              Conversation conversationId [currentUserId; participantId]
                (<[participantId :=
                     Details (js_or (display_name participantData) (email participantData))
                       participantRole]>
                   {[currentUserId :=
                       Details (js_or (ru_fullName user) (ru_email user)) currentUserRole]})
                None None now1 now2 in
            match insert_conversation
                    (ConversationRow (id conversationData) (participants conversationData)
                       (participantDetails conversationData) (lastMessage conversationData)
                       (lastMessageTime conversationData) None
                       (createdAt conversationData) (updatedAt conversationData)) st with
            | Some st' => (Json 201 (conversationId, conversationData), st')
            | None => (Fail 500 "Server error while creating conversation", st)
            end
          end
      end
  end.

(** [`msg_${Date.now()}_${Math.random().toString(36).substr(2, 9)}`] *)
Definition message_id (now : Z) (rnd : jsstring) : jsstring :=
  js "msg_" ++ decimal now ++ js "_" ++ rnd.
Arguments message_id : simpl never.

(** POST /conversations/:conversationId/messages.  [now] is [Date.now()],
    [rnd] the nine base-36 digits drawn for the identifier, [time] the
    reading of the clock for the timestamp. *)
Definition sendMessage (st : db) (user : req_user) (conversationId : jsstring)
    (text : option jsstring) (now : Z) (rnd : jsstring) (time : timestamp)
    : response (message * bool) * db :=
  let currentUserId := ru_uid user in
  match text with
  | None | Some [] => (ValidationError_message, st)
  | Some text =>
    if Nat.eqb (length (trim text)) 0 then (ValidationError_message, st)
    else
      match select_conversation st conversationId with
      | None => (Fail 500 "Server error while sending message", st)
      | Some None => (NotFound_conversation, st)
      | Some (Some conversationData) =>
        if negb (includes (c_participants conversationData) currentUserId)
        then (Forbidden, st)
        else
          let filteredMessage := filterSensitiveContent (trim text) in
          let messageData :=
            Message (message_id now rnd)
              currentUserId
              (js_or (ru_fullName user) (ru_email user))
              filteredMessage
              time
              (bool_decide (filteredMessage ≠ trim text)) in
          match insert_message
                  (MessageRow (msg_id messageData) conversationId (senderId messageData)
                     (senderName messageData) (msg_text messageData)
                     (msg_timestamp messageData) (isFiltered messageData)) st with
          | None => (Fail 500 "Server error while sending message", st)
          | Some st1 =>
            match update_last_message filteredMessage (msg_timestamp messageData)
                    currentUserId conversationId st1 with
            | None => (Fail 500 "Server error while sending message", st1)
            | Some st2 => (Json 201 (messageData, isFiltered messageData), st2)
            end
          end
      end
  end.

(** Insertion into a list that is newest first; among rows of one
    timestamp the row inserted comes first. *)
Fixpoint insert_desc (m : message_row) (l : list message_row) : list message_row :=
  match l with
  | [] => [m]
  | x :: l' =>
      if (m_timestamp x <=? m_timestamp m)%Z then m :: l else x :: insert_desc m l'
  end.

(** [SELECT ... FROM messages WHERE conversation_id = $1 ORDER BY timestamp
    DESC LIMIT $2]; the statement fails when the limit is not a finite
    number, is negative or does not fit 64 bits.  The database leaves the
    order of rows of equal timestamp open: [order_by] is the order it
    happens to give. *)
Definition select_messages_by (order_by : list message_row → list message_row)
    (st : db) (conversationId : jsstring) (limit : number) : option (list message_row) :=
  conversationId ← pg_text conversationId;
  match limit with
  | Finite n =>
      if ((n <? 0) || (9223372036854775807 <? n))%Z then None
      else
        let rows := filter (fun m => m_conversation_id m = conversationId) (messages st) in
        Some (take (Z.to_nat n) (order_by rows))
  | _ => None
  end.

(** GET /conversations/:conversationId/messages.  [page] and [limit] are
    the query parameters when given; [page] is read and not used. *)
Definition listMessages_by (order_by : list message_row → list message_row)
    (st : db) (user : req_user) (conversationId : jsstring)
    (page limit : option jsstring) : response (list message * conversation) :=
  let page := default (js "1") page in
  let limit := default (js "50") limit in
  let currentUserId := ru_uid user in
  match select_conversation st conversationId with
  | None => Fail 500 "Server error while fetching messages"
  | Some None => NotFound_conversation
  | Some (Some conversationRow) =>
    if negb (includes (c_participants conversationRow) currentUserId)
    then Forbidden
    else
      match select_messages_by order_by st conversationId (parseInt limit) with
      | None => Fail 500 "Server error while fetching messages"
      | Some rows =>
        let messages := reverse (map message_of_row rows) in
        Json 200 (messages, conversation_of_row conversationRow)
      end
  end.

(** The query and the handler with rows of equal timestamp as the table
    holds them, which is what a sort that keeps the order of the scan
    gives. *)
Definition select_messages : db → jsstring → number → option (list message_row) :=
  select_messages_by (foldr insert_desc []).

Definition listMessages
    : db → req_user → jsstring → option jsstring → option jsstring →
      response (list message * conversation) :=
  listMessages_by (foldr insert_desc []).

End Chat.

Import Chat.

(** ** Occurrences of a word in a string *)

(** [w] is a prefix of [s], code units compared by [eqb]. *)
Fixpoint prefix_by (eqb : N → N → bool) (w s : jsstring) : bool :=
  match w, s with
  | [], _ => true
  | _ :: _, [] => false
  | a :: w', c :: s' => eqb a c && prefix_by eqb w' s'
  end.

(** [w] occurs somewhere in [s]. *)
Fixpoint occurs_by (eqb : N → N → bool) (w s : jsstring) : bool :=
  prefix_by eqb w s ||
  match s with
  | [] => false
  | _ :: s' => occurs_by eqb w s'
  end.

(** [s.includes(w)] *)
Definition occurs : jsstring → jsstring → bool := occurs_by N.eqb.

(** [w] occurs in [s] in some letter case. *)
Definition occurs_ci : jsstring → jsstring → bool := occurs_by ci_eq.

(** A string of [n] mask tokens. *)
Definition masks (n : nat) : jsstring := concat (replicate n mask).

(** [o] is [s] with some of its segments replaced by the mask token. *)
Inductive masked : jsstring → jsstring → Prop :=
| masked_nil : masked [] []
| masked_keep c s o : masked s o → masked (c :: s) (c :: o)
| masked_hide pre s o : masked s o → masked (pre ++ s) (mask ++ o).

(** A word none of whose code units is matched by an asterisk, and which is
    not empty. *)
Definition star_free (w : jsstring) : Prop :=
  w ≠ [] ∧ Forall (fun a => ci_eq a 42 = false) w.

(** The filter together with the flag the send handler derives from it,
    [isFiltered = (redacted !== original)]. *)
Definition contentFilter (original : jsstring) : jsstring * bool :=
  let redacted := filterSensitiveContent original in
  (redacted, bool_decide (redacted ≠ original)).

(** Idempotence of the filter on all of its outputs. *)
Definition filter_idempotent : Prop :=
  ∀ x, filterSensitiveContent (filterSensitiveContent x) = filterSensitiveContent x.

(** The pairing rule in the words of the specification: one side is a
    brand and the other an influencer or a UGC creator. *)
Definition pairing_rule (a b : jsstring) : Prop :=
  (a = brand ∧ (b = influencer ∨ b = ugc_creator))
  ∨ ((a = influencer ∨ a = ugc_creator) ∧ b = brand).

(** A second call for the same pair answers with the record of the first,
    whatever the directory says by then. *)
Definition second_call_skips_validation : Prop :=
  ∀ st user participantId now1 now2 cid conv st1 users' now3 now4,
    createOrGetConversation st user (Some participantId) now1 now2
      = (Json 201 (cid, conv), st1) →
    createOrGetConversation (Db users' (conversations st1) (messages st1))
      user (Some participantId) now3 now4
      = (Json 200 (cid, conv), Db users' (conversations st1) (messages st1)).

(** Sample data: a brand and an influencer, and the influencer after a
    change of role. *)
Definition acme : user_row :=
  UserRow (js "u1") (Some (js "team@acme.io")) brand (Some (js "Acme")).
Definition bo : user_row :=
  UserRow (js "u2") (Some (js "bo@mail.io")) influencer (Some (js "Bo")).
Definition bo_as_brand : user_row :=
  UserRow (js "u2") (Some (js "bo@mail.io")) brand (Some (js "Bo")).
Definition cy : user_row :=
  UserRow (js "u3") (Some (js "cy@mail.io")) ugc_creator None.

Definition directory : gmap jsstring user_row :=
  <[js "u1" := acme]> (<[js "u2" := bo]> (<[js "u3" := cy]> ∅)).

Definition db0 : db := Db directory ∅ [].

(** The conversation the brand opens with the influencer, clock at 10 and
    11, as the response shows it and as the table holds it. *)
Definition conversation1 : conversation :=
  Conversation (js "u1_u2") [js "u1"; js "u2"]
    (<[js "u2" := Details (Some (js "Bo")) influencer]>
       {[js "u1" := Details (Some (js "team@acme.io")) brand]})
    None None 10 11.

Definition conversation_row1 : conversation_row :=
  ConversationRow (js "u1_u2") [js "u1"; js "u2"] (participantDetails conversation1)
    None None None 10 11.

Definition db1 : db := Db directory {[js "u1_u2" := conversation_row1]} [].

(** Then one message from each side, at 20 and at 30. *)
Definition message_row1 : message_row :=
  MessageRow (js "msg_1_k3x9q0a1z") (js "u1_u2") (js "u1") (Some (js "team@acme.io"))
    (js "hello") 20 false.
Definition message_row2 : message_row :=
  MessageRow (js "msg_2_p7m2c4d8e") (js "u1_u2") (js "u2") (Some (js "bo@mail.io"))
    (js "mail *****") 30 true.

Definition conversation_row2 : conversation_row :=
  ConversationRow (js "u1_u2") [js "u1"; js "u2"] (participantDetails conversation1)
    (Some (js "hello")) (Some 20%Z) (Some (js "u1")) 10 20.
Definition conversation_row3 : conversation_row :=
  ConversationRow (js "u1_u2") [js "u1"; js "u2"] (participantDetails conversation1)
    (Some (js "mail *****")) (Some 30%Z) (Some (js "u2")) 10 30.

Definition db2 : db := Db directory {[js "u1_u2" := conversation_row2]} [message_row1].
Definition db3 : db :=
  Db directory {[js "u1_u2" := conversation_row3]} [message_row1; message_row2].

(** The text of a request is missing or empty after trimming. *)
Definition blank (text : option jsstring) : Prop :=
  match text with
  | Some t => trim t = []
  | None => True
  end.

(** The text ["a\ud800b"]: a high surrogate without its low one. *)
Definition unpaired : jsstring := [97; 55296; 98].

(** The row of every successful send holds the output of the filter for
    the trimmed text. *)
Definition stored_text_is_filter_output : Prop :=
  ∀ st user conversationId text now rnd time status m flag st',
    sendMessage st user conversationId text now rnd time = (Json status (m, flag), st') →
    ∃ raw row,
      text = Some raw
      ∧ messages st' = messages st ++ [row]
      ∧ m_message row = filterSensitiveContent (trim raw).

(** Each refusal of a send on its own condition: a sender outside the
    conversation is answered Forbidden, a missing conversation NotFound, a
    blank text ValidationError, and the database is left as it is. *)
Definition refusals_by_condition : Prop :=
  ∀ st user conversationId text now rnd time,
    let out := sendMessage st user conversationId text now rnd time in
    (∀ row, conversations st !! conversationId = Some row →
            ru_uid user ∉ c_participants row → out = (Forbidden, st))
    ∧ (conversations st !! conversationId = None → out = (NotFound_conversation, st))
    ∧ (blank text → out = (ValidationError_message, st)).

(** The order of [ORDER BY timestamp DESC]. *)
Definition newer_first (a b : message_row) : Prop := (m_timestamp b ≤ m_timestamp a)%Z.

(** ** The other handlers of the chat router *)

Fixpoint insert_updated_desc (c : conversation_row) (l : list conversation_row)
    : list conversation_row :=
  match l with
  | [] => [c]
  | x :: l' =>
      if (c_updated_at x <=? c_updated_at c)%Z then c :: l
      else x :: insert_updated_desc c l'
  end.

(** [SELECT ... FROM conversations WHERE $1 = ANY(participants) ORDER BY
    updated_at DESC]; [order_by] is the order the database gives to the
    rows, those of equal [updated_at] included. *)
Definition select_conversations_by
    (order_by : list conversation_row → list conversation_row)
    (st : db) (currentUserId : jsstring) : option (list conversation_row) :=
  currentUserId ← pg_text currentUserId;
  Some (order_by
          (filter (fun row => currentUserId ∈ c_participants row)
             (map_to_list (conversations st)).*2)).

(** GET /conversations *)
Definition listConversations_by
    (order_by : list conversation_row → list conversation_row)
    (st : db) (user : req_user) : response (list conversation) :=
  let currentUserId := ru_uid user in
  match select_conversations_by order_by st currentUserId with
  | None => Fail 500 "Server error while fetching conversations"
  | Some result =>
    let conversations := map conversation_of_row result in
    Json 200 conversations
  end.

Definition listConversations : db → req_user → response (list conversation) :=
  listConversations_by (foldr insert_updated_desc []).

(** GET /conversations/:conversationId *)
Definition getConversation (st : db) (user : req_user) (conversationId : jsstring)
    : response conversation :=
  let currentUserId := ru_uid user in
  match select_conversation st conversationId with
  | None => Fail 500 "Server error while fetching conversation"
  | Some None => NotFound_conversation
  | Some (Some row) =>
    if negb (includes (c_participants row) currentUserId) then Forbidden
    else Json 200 (conversation_of_row row)
  end.

(** ** The middleware in front of the router (src/middleware/auth.js) *)

(** The fields of a verified token the middleware reads. *)
Record claims : Type := Claims {
  cl_uid : option jsstring;
  cl_sub : option jsstring;
  cl_email : option jsstring;
  cl_name : option jsstring }.

(** The middleware hands over to the route with [req.user] set, or answers
    itself. *)
Inductive auth_result : Type :=
| Next (user : req_user)
| Reject (status : Z) (error : string).

(** [s.replace(pat, by)] for a string [pat]: the first occurrence. *)
Fixpoint replace_first (pat by_ s : jsstring) : jsstring :=
  if prefix_by N.eqb pat s then by_ ++ drop (length pat) s
  else
    match s with
    | [] => []
    | c :: s' => c :: replace_first pat by_ s'
    end.

Definition content_creator : jsstring := js "content_creator".

(** [SELECT uid, email, role, display_name FROM users WHERE uid = $1 LIMIT
    1], the parameter being a string or [undefined], which the driver sends
    as [NULL]: [None] when the query throws. *)
Definition select_user (st : db) (uid : option jsstring) : option (option user_row) :=
  match uid with
  | Some u => u ← pg_text u; Some (users st !! u)
  | None => Some None
  end.

(** [INSERT INTO users (uid, email, role, display_name, created_at,
    is_active) VALUES ($1, $2, $3, $4, NOW(), TRUE)]: refused when a
    parameter is refused, for a [uid] that is [NULL] and on a duplicate
    primary key. *)
Definition insert_user (uid email : option jsstring) (role : jsstring)
    (displayName : option jsstring) (st : db) : option db :=
  uid ← pg_text_or_null uid;
  email ← pg_text_or_null email;
  role ← pg_text role;
  displayName ← pg_text_or_null displayName;
  match uid with
  | None => None
  | Some u =>
      match users st !! u with
      | Some _ => None
      | None =>
          Some (Db (<[u := UserRow u email role displayName]> (users st))
                  (conversations st) (messages st))
      end
  end.

(** [authMiddleware].  [verify] is [jwt.verify], [None] when it throws;
    [authorization] is the header and [JWT_SECRET] the variable of the
    environment.  Of a user's row the four columns read here are kept.
    Whatever is thrown after the token is verified is answered 401. *)
Definition authMiddleware (verify : jsstring → jsstring → option claims) (st : db)
    (authorization JWT_SECRET : option jsstring) : auth_result * db :=
  let token := replace_first (js "Bearer ") [] <$> authorization in
  match token with
  | None | Some [] => (Reject 401 "No token provided", st)
  | Some token =>
    match JWT_SECRET with
    | None | Some [] => (Reject 500 "Server configuration error", st)
    | Some secret =>
      if Nat.eqb (length (trim secret)) 0
      then (Reject 500 "Server configuration error", st)
      else
        match verify token secret with
        | None => (Reject 401 "Invalid token", st)
        | Some decoded =>
          let uid := js_or (cl_uid decoded) (cl_sub decoded) in
          let email := js_or (cl_email decoded) None in
          match select_user st uid with
          | None => (Reject 401 "Invalid token", st)
          | Some (Some pgUser) => (Next (req_user_of_row pgUser), st)
          | Some None =>
            let defaultRole := content_creator in
            let displayName := js_or (cl_name decoded) None in
            match insert_user uid email defaultRole displayName st with
            | None => (Reject 401 "Invalid token", st)
            | Some st' =>
              match select_user st' uid with
              | Some (Some pgUser) => (Next (req_user_of_row pgUser), st')
              | _ => (Reject 401 "Invalid token", st')
              end
            end
          end
        end
    end
  end.

(** What [requireRole(roles)] does with a request. *)
Inductive gate : Type :=
| Pass
| Deny (status : Z) (message : jsstring).

(** [requireRole]: [roles] is one role or an array of roles. *)
Definition requireRole (roles : jsstring + list jsstring) (user : req_user) : gate :=
  let allowedRoles := match roles with inl r => [r] | inr l => l end in
  if bool_decide (ru_role user = content_creator) && includes allowedRoles influencer
  then Pass
  else if bool_decide (ru_role user = content_creator) && includes allowedRoles ugc_creator
  then Pass
  else if negb (includes allowedRoles (ru_role user))
  then Deny 403 (js "Access denied. One of these roles required: "
                 ++ join (js ", ") allowedRoles ++ js ".")
  else Pass.

(** ** The order a query gives *)

(** [order_by] answers an [ORDER BY timestamp DESC]: the same rows, none
    before a newer one. *)
Definition orders_newest_first (order_by : list message_row → list message_row) : Prop :=
  ∀ rows, order_by rows ≡ₚ rows ∧ StronglySorted newer_first (order_by rows).

(** The order of [ORDER BY updated_at DESC]. *)
Definition later_first (a b : conversation_row) : Prop := (c_updated_at b ≤ c_updated_at a)%Z.

Definition orders_latest_first
    (order_by : list conversation_row → list conversation_row) : Prop :=
  ∀ rows, order_by rows ≡ₚ rows ∧ StronglySorted later_first (order_by rows).

(** ** Runs of code units *)

(** [s] starts with code units of the classes [ps], in this order. *)
Fixpoint starts_with (ps : list (N → bool)) (s : jsstring) : bool :=
  match ps, s with
  | [], _ => true
  | _ :: _, [] => false
  | p :: ps', c :: s' => p c && starts_with ps' s'
  end.

(** Such a run occurs somewhere in [s]. *)
Fixpoint has_run (ps : list (N → bool)) (s : jsstring) : bool :=
  starts_with ps s ||
  match s with
  | [] => false
  | _ :: s' => has_run ps s'
  end.

(** An at sign followed by a code unit of a handle. *)
Definition handle_start : list (N → bool) := [N.eqb 64; handle_part].

(** Three digits in a row. *)
Definition three_digits : list (N → bool) := [is_digit; is_digit; is_digit].

(** Every match of the pattern takes at least one code unit. *)
Fixpoint consumes (r : regex) : bool :=
  match r with
  | Empty => false
  | Char _ => true
  | Seq r1 r2 => consumes r1 || consumes r2
  | Alt r1 r2 => consumes r1 && consumes r2
  | Opt _ => false
  | Rep _ lo _ => negb (Nat.eqb lo 0)
  | WordB => false
  end.

(** The upper bound [hi] of a quantifier admits [j] repetitions. *)
Definition allows (hi : option nat) (j : nat) : Prop :=
  match hi with Some h => (j ≤ h)%nat | None => True end.

(** ** Consistency of the chat tables *)

(** What the handlers keep true of the two tables: a conversation is stored
    under its own identifier, which is derived from its two distinct
    participants; message identifiers are unique; a message belongs to a
    stored conversation and comes from one of its participants (whose
    identifier it holds as the driver sends it); its text is not empty and holds no keyword, no handle and no three digits in a row;
    the cache of a conversation is its message stored last, and is empty
    when it has none. *)
Record consistent (st : db) : Prop := Consistent {
  cons_key : ∀ cid row, conversations st !! cid = Some row → c_id row = cid;
  cons_pair : ∀ cid row, conversations st !! cid = Some row →
    ∃ a b, c_participants row = [a; b] ∧ a ≠ b ∧ cid = conversationId_of a b;
  cons_ids : NoDup (m_id <$> messages st);
  cons_owner : ∀ m, m ∈ messages st →
    ∃ row p, conversations st !! m_conversation_id m = Some row
             ∧ p ∈ c_participants row ∧ m_sender_id m = to_well_formed p;
  cons_text : ∀ m, m ∈ messages st →
    m_message m ≠ []
    ∧ (∀ w, w ∈ keywords → occurs_ci w (m_message m) = false)
    ∧ has_run handle_start (m_message m) = false
    ∧ has_run three_digits (m_message m) = false;
  cons_cache : ∀ cid row, conversations st !! cid = Some row →
    let newest := last (filter (fun m => m_conversation_id m = cid) (messages st)) in
    c_last_message row = m_message <$> newest
    ∧ c_last_message_time row = m_timestamp <$> newest
    ∧ c_last_message_sender row = m_sender_id <$> newest }.

(** What a conversation keeps for life: all but its cache and the time of
    its last update. *)
Definition immutable_part (row : conversation_row)
    : jsstring * list jsstring * gmap jsstring details * timestamp :=
  (c_id row, c_participants row, c_participant_details row, c_created_at row).

(** A first login: the token carries a subject the users table does not
    hold yet. *)
Definition secret1 : jsstring := js "s3cret".

Definition verify1 (token secret : jsstring) : option claims :=
  if bool_decide (token = js "t1") && bool_decide (secret = secret1)
  then Some (Claims None (Some (js "u7")) (Some (js "di@mail.io")) (Some (js "Di")))
  else None.

Definition di : user_row :=
  UserRow (js "u7") (Some (js "di@mail.io")) content_creator (Some (js "Di")).

(** The roles a gate of [requireRole] lets through. *)
Definition allowedRoles_of (roles : jsstring + list jsstring) : list jsstring :=
  match roles with inl r => [r] | inr l => l end.

(** * Properties *)

Section Replace.

Variable r : regex.

Lemma replace_from_masked s : ∀ prev skip,
  masked (drop skip s) (replace_from r mask prev s skip).
Proof.
  induction s as [|c s IH]; intros prev skip; simpl.
  - rewrite drop_nil.
    destruct skip; [destruct (match_len r prev [])|]; try constructor.
    rewrite <- (app_nil_r mask). apply (masked_hide [] [] []). constructor.
  - destruct skip as [|n]; [|apply IH].
    rewrite drop_0.
    destruct (match_len r prev (c :: s)) as [[|n]|].
    + apply (masked_hide [] (c :: s)). constructor.
      specialize (IH (Some c) O). by rewrite drop_0 in IH.
    + rewrite <- (take_drop (S n) (c :: s)). apply masked_hide. apply IH.
    + constructor. specialize (IH (Some c) O). by rewrite drop_0 in IH.
Qed.

Lemma replace_masked s : masked s (replace r mask s).
Proof. unfold replace. generalize (replace_from_masked s None O). by rewrite drop_0. Qed.

(** A pattern that matches neither at an asterisk nor at the end of the
    input leaves a string of asterisks as it is. *)
Lemma replace_from_stars :
  (∀ prev s, match_len r prev (42 :: s) = None) →
  (∀ prev, match_len r prev [] = None) →
  ∀ s, Forall (eq 42) s → ∀ prev, replace_from r mask prev s O = s.
Proof.
  intros Hstar Hend s Hs. induction Hs as [|c s <- _ IH]; intros prev; simpl.
  - by rewrite Hend.
  - rewrite Hstar. f_equal. apply IH.
Qed.

End Replace.

Lemma mask_stars : mask = [42; 42; 42; 42; 42].
Proof. reflexivity. Qed.

Lemma prefix_masked s o : masked s o → ∀ w,
  Forall (fun a => ci_eq a 42 = false) w →
  prefix_by ci_eq w o = true → prefix_by ci_eq w s = true.
Proof.
  induction 1 as [|c s o _ IH|pre s o _ _]; intros w Hw; destruct w as [|a w]; try done.
  - simpl. intros [Ha Hp]%andb_prop. rewrite Ha. simpl.
    apply IH; [|done]. by inversion Hw.
  - rewrite mask_stars. simpl. inversion_clear Hw as [|?? Ha _]. by rewrite Ha.
Qed.

Lemma occurs_app_r eqb w pre s :
  occurs_by eqb w (pre ++ s) = false → occurs_by eqb w s = false.
Proof.
  induction pre as [|c pre IH]; [done|].
  simpl. intros [_ H]%orb_false_elim. by apply IH.
Qed.

Lemma occurs_mask_app w o :
  star_free w → occurs_ci w o = false → occurs_ci w (mask ++ o) = false.
Proof.
  intros [Hne Hw] Ho. destruct w as [|a w]; [done|].
  unfold occurs_ci in *. rewrite mask_stars.
  inversion_clear Hw as [|?? Ha _]. simpl. rewrite Ha. simpl. exact Ho.
Qed.

(** Masking segments of a string creates no occurrence of a word without
    asterisks. *)
Lemma occurs_masked s o : masked s o → ∀ w,
  star_free w → occurs_ci w s = false → occurs_ci w o = false.
Proof.
  induction 1 as [|c s o Hm IH|pre s o Hm IH]; intros w Hw; [done| |].
  - unfold occurs_ci. simpl. intros [Hp Ho]%orb_false_elim.
    apply orb_false_intro; [|by apply IH].
    destruct (prefix_by ci_eq w (c :: o)) eqn:E; [|done].
    apply (prefix_masked (c :: s)) in E; [|by constructor|apply Hw].
    simpl in E. congruence.
  - intros Ho. apply occurs_mask_app; [done|].
    apply IH; [done|]. by apply occurs_app_r in Ho.
Qed.

(** *** The keyword pattern *)

Lemma matcher_word_ci w : ∀ prev s,
  matcher (word_ci w) (fun _ rest => Some rest) prev s =
  if prefix_by ci_eq w s then Some (drop (length w) s) else None.
Proof.
  induction w as [|a w IH]; intros prev s; [done|].
  change (word_ci (a :: w)) with (Seq (Char (ci_eq a)) (word_ci w)).
  cbn [matcher]. destruct s as [|c s]; [done|].
  simpl. destruct (ci_eq a c); [apply IH|done].
Qed.

Lemma prefix_by_length eqb w s :
  prefix_by eqb w s = true →
  (length s - length (drop (length w) s))%nat = length w.
Proof.
  revert s. induction w as [|a w IH]; intros s H.
  - rewrite drop_0. simpl. lia.
  - destruct s as [|c s]; [done|]. simpl in H. apply andb_prop in H as [_ H].
    specialize (IH s H). rewrite length_drop in *. simpl. lia.
Qed.

(** Where a keyword starts in some letter case, the pattern matches, and
    its matches are never empty. *)
Lemma match_len_whatsapp prev s :
  match match_len whatsappRegex prev s with
  | Some n => n ≠ O
  | None => Forall (fun w => prefix_by ci_eq w s = false) keywords
  end.
Proof.
  unfold match_len, whatsappRegex. cbn [matcher]. rewrite !matcher_word_ci.
  destruct (prefix_by ci_eq (js "whatsapp") s) eqn:E1;
    [by rewrite (prefix_by_length _ _ _ E1)|].
  destruct (prefix_by ci_eq (js "wa.me") s) eqn:E2;
    [by rewrite (prefix_by_length _ _ _ E2)|].
  destruct (prefix_by ci_eq (js "t.me") s) eqn:E3;
    [by rewrite (prefix_by_length _ _ _ E3)|].
  destruct (prefix_by ci_eq (js "telegram") s) eqn:E4;
    [by rewrite (prefix_by_length _ _ _ E4)|].
  by repeat constructor.
Qed.

Lemma keywords_star_free : Forall star_free keywords.
Proof. repeat constructor; done. Qed.

Lemma occurs_mask w : star_free w → occurs_ci w mask = false.
Proof.
  intros Hw. rewrite <- (app_nil_r mask). apply occurs_mask_app; [done|].
  destruct Hw as [Hne _]. by destruct w.
Qed.

(** The output of the keyword replacement holds no keyword. *)
Lemma replace_whatsapp_clean w : w ∈ keywords → ∀ s prev skip,
  occurs_ci w (replace_from whatsappRegex mask prev s skip) = false.
Proof.
  intros Hin.
  assert (Hw : star_free w).
  { pose proof keywords_star_free as F. rewrite Forall_forall in F. by apply F. }
  induction s as [|c s IH]; intros prev skip; simpl.
  - destruct skip; [destruct (match_len whatsappRegex prev [])|];
      first [by apply occurs_mask | by destruct Hw as [Hne _]; destruct w].
  - destruct skip as [|n]; [|apply IH].
    pose proof (match_len_whatsapp prev (c :: s)) as M.
    destruct (match_len whatsappRegex prev (c :: s)) as [[|n]|]; [done| |].
    + apply occurs_mask_app; [done|apply IH].
    + unfold occurs_ci. simpl. apply orb_false_intro; [|apply IH].
      destruct (prefix_by ci_eq w (c :: replace_from whatsappRegex mask (Some c) s 0)) eqn:E;
        [|done].
      apply (prefix_masked (c :: s)) in E; [|constructor|apply Hw].
      * rewrite Forall_forall in M. rewrite (M w Hin) in E. done.
      * generalize (replace_from_masked whatsappRegex s (Some c) O). by rewrite drop_0.
Qed.

Lemma filter_clean w message :
  w ∈ keywords → occurs_ci w (filterSensitiveContent message) = false.
Proof.
  intros Hin. unfold filterSensitiveContent.
  assert (Hw : star_free w).
  { pose proof keywords_star_free as F. rewrite Forall_forall in F. by apply F. }
  eapply occurs_masked; [apply replace_masked|done|].
  by apply replace_whatsapp_clean.
Qed.

(** *** No pattern matches at an asterisk *)

Lemma email_no_star prev s : match_len emailRegex prev (42 :: s) = None.
Proof. unfold match_len. by destruct prev as [c|]; simpl; [destruct (is_word c)|]. Qed.

Lemma email_no_end prev : match_len emailRegex prev [] = None.
Proof. unfold match_len. by destruct prev as [c|]; simpl; [destruct (is_word c)|]. Qed.

Lemma phone_no_star prev s : match_len phoneRegex prev (42 :: s) = None.
Proof. reflexivity. Qed.

Lemma phone_no_end prev : match_len phoneRegex prev [] = None.
Proof. reflexivity. Qed.

Lemma whatsapp_no_star prev s : match_len whatsappRegex prev (42 :: s) = None.
Proof. reflexivity. Qed.

Lemma whatsapp_no_end prev : match_len whatsappRegex prev [] = None.
Proof. reflexivity. Qed.

Lemma social_no_star prev s : match_len socialRegex prev (42 :: s) = None.
Proof. reflexivity. Qed.

Lemma social_no_end prev : match_len socialRegex prev [] = None.
Proof. reflexivity. Qed.

Lemma filter_stars s : Forall (eq 42) s → filterSensitiveContent s = s.
Proof.
  intros Hs. unfold filterSensitiveContent, replace.
  rewrite (replace_from_stars emailRegex email_no_star email_no_end s Hs).
  rewrite (replace_from_stars phoneRegex phone_no_star phone_no_end s Hs).
  rewrite (replace_from_stars whatsappRegex whatsapp_no_star whatsapp_no_end s Hs).
  by rewrite (replace_from_stars socialRegex social_no_star social_no_end s Hs).
Qed.

Lemma masks_stars n : Forall (eq 42) (masks n).
Proof.
  induction n as [|n IH]; [constructor|].
  unfold masks. cbn [replicate concat]. apply Forall_app. split; [|exact IH].
  rewrite mask_stars. by repeat constructor.
Qed.

(** *** Claims on the content filter *)

(** C7: the filter maps "reach me at test@example.com" to a text without
    "@example.com" and flags it, maps "find me on telegram" to a text in
    which "telegram" is replaced by the mask and flags it, and leaves
    "great collab idea!" as it is, unflagged. *)
Theorem filter_detection_cases :
  (let out := contentFilter (js "reach me at test@example.com") in
   out = (js "reach me at *****", true) ∧ occurs (js "@example.com") out.1 = false)
  ∧ (let out := contentFilter (js "find me on telegram") in
     out = (js "find me on *****", true) ∧ occurs (js "telegram") out.1 = false)
  ∧ contentFilter (js "great collab idea!") = (js "great collab idea!", false).
Proof. by vm_compute. Qed.

(** C9, as stated: the equation filter(filter(x)) = filter(x) fails on the
    output for "a@-b.com123".  The first pass finds no e-mail address (the
    top-level domain is followed by a digit), masks the digits and leaves
    "@-" alone; in the second pass the address ends at the mask and is
    replaced. *)
Lemma filter_not_idempotent : ¬ filter_idempotent.
Proof.
  intros H. specialize (H (js "a@-b.com123")). vm_compute in H. discriminate H.
Qed.

(** C9, amended: a text that consists of mask tokens only is left as it is
    by the filter, so filtering it twice gives what filtering it once
    gives. *)
Theorem filter_idempotent_on_masks n :
  filterSensitiveContent (masks n) = masks n
  ∧ filterSensitiveContent (filterSensitiveContent (masks n))
    = filterSensitiveContent (masks n).
Proof.
  assert (H : filterSensitiveContent (masks n) = masks n)
    by apply filter_stars, masks_stars.
  by rewrite !H.
Qed.

(** C10: for every input, the output of the filter holds no occurrence of
    "whatsapp", "wa.me", "t.me" or "telegram" in any letter case. *)
Theorem filter_removes_keywords message :
  occurs_ci (js "whatsapp") (filterSensitiveContent message) = false
  ∧ occurs_ci (js "wa.me") (filterSensitiveContent message) = false
  ∧ occurs_ci (js "t.me") (filterSensitiveContent message) = false
  ∧ occurs_ci (js "telegram") (filterSensitiveContent message) = false.
Proof.
  repeat split; apply filter_clean; unfold keywords; set_solver.
Qed.

(** *** Helpers on strings and arrays *)

Lemma includes_elem l x : includes l x = true ↔ x ∈ l.
Proof.
  unfold includes. induction l as [|y l IH]; simpl.
  - split; [done|]. by intros ?%not_elem_of_nil.
  - rewrite orb_true_iff, bool_decide_eq_true, IH, elem_of_cons.
    intuition congruence.
Qed.

Lemma str_lt_asym a : ∀ b, str_lt a b = true → str_lt b a = false.
Proof.
  induction a as [|x a IH]; intros [|y b]; simpl; try done.
  intros H. apply orb_false_intro.
  - apply N.ltb_ge. destruct (N.ltb_spec x y); [lia|].
    simpl in H. apply andb_prop in H as [H _]. apply N.eqb_eq in H. lia.
  - destruct (N.eqb_spec y x) as [->|]; [|done]. simpl.
    rewrite N.ltb_irrefl, N.eqb_refl in H. simpl in H. by apply IH.
Qed.

Lemma str_lt_connex a : ∀ b, str_lt a b = false → str_lt b a = false → a = b.
Proof.
  induction a as [|x a IH]; intros [|y b]; simpl; try done.
  intros [H1 H2]%orb_false_elim [H3 H4]%orb_false_elim.
  apply N.ltb_ge in H1, H3. assert (x = y) as -> by lia.
  rewrite N.eqb_refl in H2, H4. simpl in *. f_equal. by apply IH.
Qed.

Lemma sort_pair a b : sort [a; b] = if str_lt b a then [b; a] else [a; b].
Proof. reflexivity. Qed.

Lemma conversationId_of_comm a b : conversationId_of a b = conversationId_of b a.
Proof.
  unfold conversationId_of. rewrite !sort_pair.
  destruct (str_lt b a) eqn:E1, (str_lt a b) eqn:E2; try done.
  - by rewrite (str_lt_asym _ _ E1) in E2.
  - by rewrite (str_lt_connex _ _ E1 E2).
Qed.

(** *** Helpers on the conversation handler *)

Lemma validCombinations_pairing a b :
  existsb (fun combo => combo) (validCombinations a b) = true ↔ pairing_rule a b.
Proof.
  unfold validCombinations, pairing_rule. simpl.
  rewrite !orb_true_iff, !andb_true_iff, !orb_true_iff, !bool_decide_eq_true.
  intuition congruence.
Qed.

(** The handler behind the three guards and the pairing rule. *)
Lemma createOrGetConversation_valid st user participantId participantData now1 now2 :
  participantId ≠ [] → participantId ≠ ru_uid user →
  users st !! participantId = Some participantData →
  pairing_rule (ru_role user) (role participantData) →
  let cid := conversationId_of (ru_uid user) participantId in
  createOrGetConversation st user (Some participantId) now1 now2 =
  match conversations st !! cid with
  | Some row => (Json 200 (cid, conversation_of_row row), st)
  | None =>
      let row :=
        ConversationRow cid [ru_uid user; participantId]
          (<[participantId :=
               Details (js_or (display_name participantData) (email participantData))
                 (role participantData)]>
             {[ru_uid user := Details (js_or (ru_fullName user) (ru_email user)) (ru_role user)]})
          None None None now1 now2 in
      (Json 201 (cid, conversation_of_row row),
       Db (users st) (<[cid := row]> (conversations st)) (messages st))
  end.
Proof.
  intros Hne Hself Hu Hp. apply validCombinations_pairing in Hp.
  unfold createOrGetConversation. destruct participantId as [|c p]; [done|].
  rewrite bool_decide_eq_false_2 by done. rewrite Hu, Hp. simpl.
  destruct (conversations st !! _) eqn:E; [done|].
  unfold insert_conversation. simpl. by rewrite E.
Qed.

Lemma createOrGetConversation_invalid st user participantId participantData now1 now2 :
  participantId ≠ [] → participantId ≠ ru_uid user →
  users st !! participantId = Some participantData →
  ¬ pairing_rule (ru_role user) (role participantData) →
  createOrGetConversation st user (Some participantId) now1 now2 = (InvalidPairing, st).
Proof.
  intros Hne Hself Hu Hp. rewrite <- validCombinations_pairing in Hp.
  apply not_true_is_false in Hp.
  unfold createOrGetConversation. destruct participantId as [|c p]; [done|].
  rewrite bool_decide_eq_false_2 by done. by rewrite Hu, Hp.
Qed.

(** What a successful call tells about its arguments and about the
    database it leaves. *)
Lemma createOrGetConversation_success st user participantId now1 now2 status cid conv st1 :
  createOrGetConversation st user (Some participantId) now1 now2
    = (Json status (cid, conv), st1) →
  participantId ≠ [] ∧ participantId ≠ ru_uid user
  ∧ cid = conversationId_of (ru_uid user) participantId
  ∧ users st1 = users st ∧ messages st1 = messages st
  ∧ ∃ row, conversations st1 !! cid = Some row ∧ conversation_of_row row = conv.
Proof.
  unfold createOrGetConversation. destruct participantId as [|c p]; [done|].
  case_bool_decide as Hself; [done|].
  destruct (users st !! (c :: p)) as [pd|]; [|done].
  destruct (negb _); [done|].
  destruct (conversations st !! _) as [row|] eqn:E.
  - intros [= <- <- <- <-]. eauto 10.
  - unfold insert_conversation. simpl. rewrite E. intros [= <- <- <- <-]. simpl.
    repeat split; try done. eexists. by rewrite lookup_insert_eq.
Qed.

(** *** Claims on get-or-create *)

(** C2: for a requester and a participant of the directory, distinct, the
    call succeeds exactly when one side is a brand and the other an
    influencer or a UGC creator, in either direction; otherwise it is
    refused with the invalid-pairing answer (403) and nothing is written,
    so for brand with brand and for influencer with UGC creator. *)
Theorem createOrGetConversation_pairing st user participantId participantData now1 now2 :
  participantId ≠ [] → participantId ≠ ru_uid user →
  users st !! participantId = Some participantData →
  let out := createOrGetConversation st user (Some participantId) now1 now2 in
  ((∃ status body, out.1 = Json status body)
     ↔ pairing_rule (ru_role user) (role participantData))
  ∧ (¬ pairing_rule (ru_role user) (role participantData) → out = (InvalidPairing, st))
  ∧ (ru_role user = brand → role participantData = brand → out = (InvalidPairing, st))
  ∧ (ru_role user = influencer → role participantData = ugc_creator →
     out = (InvalidPairing, st))
  ∧ (ru_role user = ugc_creator → role participantData = influencer →
     out = (InvalidPairing, st)).
Proof.
  intros Hne Hself Hu out.
  assert (Hinv : ¬ pairing_rule (ru_role user) (role participantData) →
                 out = (InvalidPairing, st))
    by (intros; by apply createOrGetConversation_invalid with participantData).
  split; [|split; [done|]].
  - split.
    + intros (status & body & Hout).
      destruct (decide (pairing_rule (ru_role user) (role participantData))) as [|Hn];
        [done|].
      rewrite (Hinv Hn) in Hout. discriminate Hout.
    + intros Hp. subst out.
      rewrite (createOrGetConversation_valid _ _ _ participantData) by done.
      simpl. destruct (conversations st !! _); simpl; eauto.
  - repeat split; intros Ha Hb; apply Hinv; rewrite Ha, Hb;
      unfold pairing_rule; intros [[? [?|?]]|[[?|?] ?]]; discriminate.
Qed.

Lemma createOrGetConversation_pairing_witness :
  (js "u2" ≠ [] ∧ js "u2" ≠ ru_uid (req_user_of_row acme)
   ∧ users db0 !! js "u2" = Some bo)
  ∧ ((∃ status body,
        (createOrGetConversation db0 (req_user_of_row acme) (Some (js "u2")) 10 11).1
        = Json status body)
     ↔ pairing_rule (ru_role (req_user_of_row acme)) (role bo)).
Proof.
  assert (H1 : js "u2" ≠ []) by discriminate.
  assert (H2 : js "u2" ≠ ru_uid (req_user_of_row acme)) by discriminate.
  assert (H3 : users db0 !! js "u2" = Some bo) by (vm_compute; reflexivity).
  split; [done|].
  exact (proj1 (createOrGetConversation_pairing db0 (req_user_of_row acme) (js "u2") bo
                  10 11 H1 H2 H3)).
Defined.

(** C8: a call whose participant is the requester is refused with the
    self-conversation answer, and nothing is written. *)
Theorem createOrGetConversation_self st user now1 now2 :
  ru_uid user ≠ [] →
  createOrGetConversation st user (Some (ru_uid user)) now1 now2 = (SelfConversation, st).
Proof.
  intros Hne. unfold createOrGetConversation.
  destruct (ru_uid user) as [|c u] eqn:E; [done|].
  by rewrite bool_decide_eq_true_2.
Qed.

Lemma createOrGetConversation_self_witness :
  ru_uid (req_user_of_row acme) ≠ []
  ∧ createOrGetConversation db1 (req_user_of_row acme)
      (Some (ru_uid (req_user_of_row acme))) 10 11 = (SelfConversation, db1).
Proof.
  assert (H : ru_uid (req_user_of_row acme) ≠ []) by discriminate.
  split; [exact H|].
  exact (createOrGetConversation_self db1 (req_user_of_row acme) 10 11 H).
Defined.

(** C4: the identifier of the conversation of A and B is the same in both
    directions: the two identifiers in ascending order, joined by an
    underscore; two successful calls, one in each direction, answer with
    that identifier. *)
Theorem conversationId_order_independent st st' userA userB now1 now2 now3 now4
    status1 status2 cid1 cid2 conv1 conv2 st1 st2 :
  createOrGetConversation st userA (Some (ru_uid userB)) now1 now2
    = (Json status1 (cid1, conv1), st1) →
  createOrGetConversation st' userB (Some (ru_uid userA)) now3 now4
    = (Json status2 (cid2, conv2), st2) →
  cid1 = cid2
  ∧ cid1 = conversationId_of (ru_uid userA) (ru_uid userB)
  ∧ conversationId_of (ru_uid userA) (ru_uid userB)
    = conversationId_of (ru_uid userB) (ru_uid userA)
  ∧ ∃ lo hi,
      ((lo = ru_uid userA ∧ hi = ru_uid userB) ∨ (lo = ru_uid userB ∧ hi = ru_uid userA))
      ∧ str_lt hi lo = false
      ∧ cid1 = lo ++ js "_" ++ hi.
Proof.
  intros (_ & _ & -> & _)%createOrGetConversation_success
         (_ & _ & -> & _)%createOrGetConversation_success.
  split; [apply conversationId_of_comm|]. split; [done|].
  split; [apply conversationId_of_comm|].
  unfold conversationId_of. rewrite sort_pair.
  destruct (str_lt (ru_uid userB) (ru_uid userA)) eqn:E.
  - exists (ru_uid userB), (ru_uid userA). split; [by right|].
    split; [by apply str_lt_asym|done].
  - exists (ru_uid userA), (ru_uid userB). split; [by left|]. done.
Qed.

Lemma conversationId_order_independent_witness :
  createOrGetConversation db0 (req_user_of_row acme) (Some (ru_uid (req_user_of_row bo))) 10 11
    = (Json 201 (js "u1_u2", conversation1), db1)
  ∧ createOrGetConversation db1 (req_user_of_row bo) (Some (ru_uid (req_user_of_row acme))) 12 13
    = (Json 200 (js "u1_u2", conversation1), db1)
  ∧ js "u1_u2" = conversationId_of (js "u1") (js "u2")
  ∧ conversationId_of (js "u1") (js "u2") = conversationId_of (js "u2") (js "u1").
Proof.
  assert (H1 : createOrGetConversation db0 (req_user_of_row acme)
                 (Some (ru_uid (req_user_of_row bo))) 10 11
               = (Json 201 (js "u1_u2", conversation1), db1))
    by (vm_compute; reflexivity).
  assert (H2 : createOrGetConversation db1 (req_user_of_row bo)
                 (Some (ru_uid (req_user_of_row acme))) 12 13
               = (Json 200 (js "u1_u2", conversation1), db1))
    by (vm_compute; reflexivity).
  split; [exact H1|]. split; [exact H2|].
  destruct (conversationId_order_independent _ _ _ _ _ _ _ _ _ _ _ _ _ _ _ _ H1 H2)
    as (_ & Hid & Hcomm & _).
  split; [exact Hid|exact Hcomm].
Defined.

(** C3, as stated: the second call does validate the roles again.  After
    the brand u1 opened the conversation with the influencer u2, and u2
    became a brand in the directory, the same call is refused. *)
Lemma second_call_validates_roles : ¬ second_call_skips_validation.
Proof.
  intros H.
  specialize (H db0 (req_user_of_row acme) (js "u2") 10%Z 11%Z (js "u1_u2") conversation1
                db1 (<[js "u2" := bo_as_brand]> directory) 12%Z 13%Z).
  assert (H1 : createOrGetConversation db0 (req_user_of_row acme) (Some (js "u2")) 10 11
               = (Json 201 (js "u1_u2", conversation1), db1))
    by (vm_compute; reflexivity).
  specialize (H H1). vm_compute in H. discriminate H.
Qed.

(** C3, amended: after a successful call, a further call for the same pair,
    from either side, validates the participant and the roles again before
    it looks for the conversation.  When the participant is still in the
    directory and the roles still satisfy the pairing rule, it answers with
    the record of the first call and leaves the database as it is: no
    second conversation is created.  When the roles no longer satisfy the
    rule it answers 403, and when the participant is no longer in the
    directory 404, although the conversation exists. *)
Theorem createOrGetConversation_again st user participantId now1 now2 status cid conv st1
    users' user' participantId' now3 now4 :
  createOrGetConversation st user (Some participantId) now1 now2
    = (Json status (cid, conv), st1) →
  (ru_uid user' = ru_uid user ∧ participantId' = participantId)
  ∨ (ru_uid user' = participantId ∧ participantId' = ru_uid user) →
  participantId' ≠ [] →
  let st2 := Db users' (conversations st1) (messages st1) in
  let out := createOrGetConversation st2 user' (Some participantId') now3 now4 in
  (∃ row, conversations st2 !! cid = Some row ∧ conversation_of_row row = conv)
  ∧ match users' !! participantId' with
    | Some participantData' =>
        (pairing_rule (ru_role user') (role participantData') →
         out = (Json 200 (cid, conv), st2))
        ∧ (¬ pairing_rule (ru_role user') (role participantData') →
           out = (InvalidPairing, st2))
    | None => out = (NotFound_participant, st2)
    end.
Proof.
  intros (Hne & Hself & -> & _ & _ & row & Hrow & <-)%createOrGetConversation_success
         Hpair Hne' st2 out.
  assert (Hself' : participantId' ≠ ru_uid user') by (destruct Hpair as [[-> ->]|[-> ->]]; done).
  assert (Hcid : conversationId_of (ru_uid user') participantId'
                 = conversationId_of (ru_uid user) participantId).
  { destruct Hpair as [[-> ->]|[-> ->]]; [done|apply conversationId_of_comm]. }
  split; [by exists row|].
  destruct (users' !! participantId') as [pd'|] eqn:Hu.
  - split; intros Hp.
    + subst out. rewrite (createOrGetConversation_valid _ _ _ pd') by done.
      simpl. by rewrite Hcid, Hrow.
    + by apply createOrGetConversation_invalid with pd'.
  - subst out. unfold createOrGetConversation. destruct participantId' as [|c p]; [done|].
    rewrite bool_decide_eq_false_2 by done. simpl. by rewrite Hu.
Qed.

Lemma createOrGetConversation_again_witness :
  createOrGetConversation db0 (req_user_of_row acme) (Some (js "u2")) 10 11
    = (Json 201 (js "u1_u2", conversation1), db1)
  ∧ createOrGetConversation (Db directory (conversations db1) (messages db1))
      (req_user_of_row bo) (Some (js "u1")) 12 13
    = (Json 200 (js "u1_u2", conversation1), Db directory (conversations db1) (messages db1))
  ∧ createOrGetConversation
      (Db (<[js "u2" := bo_as_brand]> directory) (conversations db1) (messages db1))
      (req_user_of_row acme) (Some (js "u2")) 12 13
    = (InvalidPairing,
       Db (<[js "u2" := bo_as_brand]> directory) (conversations db1) (messages db1))
  ∧ createOrGetConversation
      (Db (delete (js "u2") directory) (conversations db1) (messages db1))
      (req_user_of_row acme) (Some (js "u2")) 12 13
    = (NotFound_participant,
       Db (delete (js "u2") directory) (conversations db1) (messages db1)).
Proof.
  assert (H1 : createOrGetConversation db0 (req_user_of_row acme) (Some (js "u2")) 10 11
               = (Json 201 (js "u1_u2", conversation1), db1))
    by (vm_compute; reflexivity).
  split; [exact H1|]. split; [|split].
  - pose proof (createOrGetConversation_again db0 (req_user_of_row acme) (js "u2") 10 11 201
                  (js "u1_u2") conversation1 db1 directory (req_user_of_row bo) (js "u1")
                  12 13 H1) as H.
    destruct H as [_ H]; [right; split; reflexivity|discriminate|].
    change (directory !! js "u1") with (Some acme) in H.
    apply (proj1 H). right. split; [left|]; reflexivity.
  - pose proof (createOrGetConversation_again db0 (req_user_of_row acme) (js "u2") 10 11 201
                  (js "u1_u2") conversation1 db1 (<[js "u2" := bo_as_brand]> directory)
                  (req_user_of_row acme) (js "u2") 12 13 H1) as H.
    destruct H as [_ H]; [left; split; reflexivity|discriminate|].
    change (<[js "u2" := bo_as_brand]> directory !! js "u2") with (Some bo_as_brand) in H.
    apply (proj2 H). intros [[_ [E|E]]|[[E|E] _]]; discriminate E.
  - pose proof (createOrGetConversation_again db0 (req_user_of_row acme) (js "u2") 10 11 201
                  (js "u1_u2") conversation1 db1 (delete (js "u2") directory)
                  (req_user_of_row acme) (js "u2") 12 13 H1) as H.
    destruct H as [_ H]; [left; split; reflexivity|discriminate|].
    change (delete (js "u2") directory !! js "u2") with (@None user_row) in H.
    exact H.
Defined.

(** *** Claims on sending *)

Lemma pg_text_Some s t :
  pg_text s = Some t ↔ Forall (fun c => c ≠ 0) s ∧ t = to_well_formed s.
Proof.
  unfold pg_text. destruct (existsb _ s) eqn:E.
  - split; [done|]. intros [H _]. apply existsb_exists in E as (c & Hc & Hz).
    apply N.eqb_eq in Hz. subst c. rewrite Forall_forall in H.
    destruct (H 0); [by apply list_elem_of_In|done].
  - split; [|by intros [_ ->]]. intros [= <-]. split; [|done].
    apply Forall_forall. intros c Hc ->. apply not_true_iff_false in E. apply E.
    apply existsb_exists. exists 0. split; [by apply list_elem_of_In|done].
Qed.

(** A send leaves the database as it is, or appends one message under a
    fresh identifier and refreshes the cache of its conversation; the text
    parameters are stored as the driver sends them. *)
Lemma sendMessage_state st user conversationId text now rnd time :
  let out := sendMessage st user conversationId text now rnd time in
  (out.2 = st ∧ ∀ status body, out.1 ≠ Json status body)
  ∨ ∃ raw cid crow id sender name stored,
      let flag := bool_decide (filterSensitiveContent (trim raw) ≠ trim raw) in
      text = Some raw ∧ trim raw ≠ []
      ∧ pg_text conversationId = Some cid
      ∧ conversations st !! cid = Some crow
      ∧ ru_uid user ∈ c_participants crow
      ∧ pg_text (message_id now rnd) = Some id
      ∧ pg_text (ru_uid user) = Some sender
      ∧ pg_text_or_null (js_or (ru_fullName user) (ru_email user)) = Some name
      ∧ pg_text (filterSensitiveContent (trim raw)) = Some stored
      ∧ (∀ m, m ∈ messages st → m_id m ≠ id)
      ∧ out =
        (Json 201
           (Message (message_id now rnd) (ru_uid user)
              (js_or (ru_fullName user) (ru_email user))
              (filterSensitiveContent (trim raw)) time flag, flag),
         Db (users st)
           (<[cid :=
                ConversationRow (c_id crow) (c_participants crow)
                  (c_participant_details crow) (Some stored) (Some time)
                  (Some sender) (c_created_at crow) time]> (conversations st))
           (messages st ++ [MessageRow id cid sender name stored time flag])).
Proof.
  unfold sendMessage. destruct text as [[|c t]|]; try (by left).
  set (raw := c :: t). clearbody raw. clear c t.
  set (trimmed := trim raw). set (filtered := filterSensitiveContent trimmed).
  assert (Htr : trimmed = trim raw) by done.
  assert (Hfi : filtered = filterSensitiveContent trimmed) by done.
  clearbody filtered. clearbody trimmed.
  destruct (Nat.eqb _ _) eqn:El; [by left|].
  unfold select_conversation.
  destruct (pg_text conversationId) as [cid|] eqn:Ecid; simpl; [|by left].
  destruct (conversations st !! cid) as [crow|] eqn:E; [|by left].
  destruct (includes _ _) eqn:Hp; [|by left]. simpl.
  unfold insert_message. simpl. rewrite Ecid.
  destruct (pg_text (message_id now rnd)) as [id|] eqn:Eid; simpl; [|by left].
  destruct (pg_text (ru_uid user)) as [sender|] eqn:Es; simpl; [|by left].
  destruct (pg_text_or_null _) as [name|] eqn:En; simpl; [|by left].
  destruct (pg_text filtered) as [stored|] eqn:Et; simpl; [|by left].
  destruct (existsb _ _) eqn:Hx; [by left|].
  unfold update_last_message. simpl. rewrite Et, Es, Ecid. simpl.
  right. exists raw, cid, crow, id, sender, name, stored.
  rewrite <- Htr, <- Hfi. simpl. repeat split; try done.
  - intros Ht. by rewrite Ht in El.
  - by apply includes_elem.
  - intros m Hm Hid. apply not_true_iff_false in Hx. apply Hx.
    apply existsb_exists. exists m. split; [by apply list_elem_of_In|].
    by apply bool_decide_eq_true.
  - do 2 f_equal. apply map_eq. intros k. destruct (decide (k = cid)) as [->|Hk].
    + by rewrite lookup_alter_eq, lookup_insert_eq, E.
    + by rewrite lookup_alter_ne, lookup_insert_ne.
Qed.

(** C1, as stated: for the text "a" U+D800 "b" the send answers 201 with
    the text as it was sent, and the row holds U+FFFD in the place of the
    surrogate, which is not what the filter gave. *)
Lemma stored_text_replaces_unpaired_surrogate : ¬ stored_text_is_filter_output.
Proof.
  intros H.
  destruct (H db1 (req_user_of_row acme) (js "u1_u2") (Some unpaired) 1%Z (js "k3x9q0a1z")
              20%Z 201%Z
              (Message (message_id 1 (js "k3x9q0a1z")) (js "u1") (Some (js "team@acme.io"))
                 unpaired 20 false)
              false
              (sendMessage db1 (req_user_of_row acme) (js "u1_u2") (Some unpaired) 1
                 (js "k3x9q0a1z") 20).2)
    as (raw & row & [= <-] & Hrow & Htext); [by vm_compute|].
  vm_compute in Hrow. injection Hrow as <-. vm_compute in Htext. discriminate Htext.
Qed.

(** C1, amended: after a successful send, the stored text is the filter
    applied to the trimmed raw text with every unpaired surrogate replaced
    by U+FFFD, and so is that text itself when it has none; the answer
    carries the text as the filter gave it; the stored flag says whether
    the filter changed the trimmed text; the conversation caches the stored
    text as its last message and the stored timestamp as its time. *)
Theorem sendMessage_stores_filtered st user conversationId text now rnd time status m flag st' :
  sendMessage st user conversationId text now rnd time = (Json status (m, flag), st') →
  ∃ raw row cid crow,
    text = Some raw
    ∧ messages st' = messages st ++ [row]
    ∧ pg_text conversationId = Some cid
    ∧ m_conversation_id row = cid
    ∧ msg_text m = filterSensitiveContent (trim raw)
    ∧ m_message row = to_well_formed (filterSensitiveContent (trim raw))
    ∧ (to_well_formed (filterSensitiveContent (trim raw))
         = filterSensitiveContent (trim raw) →
       m_message row = filterSensitiveContent (trim raw))
    ∧ (m_is_filtered row = true ↔ filterSensitiveContent (trim raw) ≠ trim raw)
    ∧ flag = m_is_filtered row
    ∧ isFiltered m = m_is_filtered row
    ∧ m_timestamp row = msg_timestamp m
    ∧ conversations st' !! cid = Some crow
    ∧ c_last_message crow = Some (m_message row)
    ∧ c_last_message_time crow = Some (m_timestamp row).
Proof.
  intros Hsend.
  destruct (sendMessage_state st user conversationId text now rnd time)
    as [[_ E]|(raw & cid & crow & id & sender & name & stored & E)].
  { rewrite Hsend in E. by destruct (E status (m, flag)). }
  destruct E as (-> & _ & Hcid & _ & _ & _ & _ & _ & Ht & _ & E).
  rewrite Hsend in E. injection E as -> -> -> ->.
  apply pg_text_Some in Ht as [_ ->].
  exists raw, (MessageRow id cid sender name
                 (to_well_formed (filterSensitiveContent (trim raw))) time
                 (bool_decide (filterSensitiveContent (trim raw) ≠ trim raw))),
    cid, (ConversationRow (c_id crow) (c_participants crow) (c_participant_details crow)
            (Some (to_well_formed (filterSensitiveContent (trim raw)))) (Some time)
            (Some sender) (c_created_at crow) time).
  cbn [m_message m_is_filtered m_timestamp m_conversation_id msg_text isFiltered
       msg_timestamp c_last_message c_last_message_time conversations messages].
  repeat split; try done.
  - apply bool_decide_eq_true.
  - apply bool_decide_eq_true.
  - apply lookup_insert_eq.
Qed.

Lemma sendMessage_stores_filtered_witness :
  sendMessage db2 (req_user_of_row bo) (js "u1_u2") (Some (js " mail bo@mail.io ")) 2
    (js "p7m2c4d8e") 30 = (Json 201 (message_of_row message_row2, true), db3)
  ∧ ∃ row crow,
      messages db3 = messages db2 ++ [row]
      ∧ m_message row
        = to_well_formed (filterSensitiveContent (trim (js " mail bo@mail.io ")))
      ∧ conversations db3 !! js "u1_u2" = Some crow
      ∧ c_last_message crow = Some (m_message row)
      ∧ c_last_message_time crow = Some (m_timestamp row).
Proof.
  assert (H : sendMessage db2 (req_user_of_row bo) (js "u1_u2")
                (Some (js " mail bo@mail.io ")) 2 (js "p7m2c4d8e") 30
              = (Json 201 (message_of_row message_row2, true), db3))
    by (vm_compute; reflexivity).
  split; [exact H|].
  destruct (sendMessage_stores_filtered _ _ _ _ _ _ _ _ _ _ _ H)
    as (raw & row & cid & crow & [= <-] & H1 & [= <-] & _ & _ & H2 & _ & _ & _ & _ & _
        & H3 & H4 & H5).
  exists row, crow. repeat split; assumption.
Defined.

Lemma pg_text_None s : pg_text s = None ↔ 0 ∈ s.
Proof.
  unfold pg_text. destruct (existsb _ s) eqn:E.
  - split; [intros _|done]. apply existsb_exists in E as (c & Hc & Hz).
    apply N.eqb_eq in Hz. subst c. by apply list_elem_of_In.
  - split; [done|]. intros H. apply not_true_iff_false in E. destruct E.
    apply existsb_exists. exists 0. split; [by apply list_elem_of_In|done].
Qed.

Lemma pg_text_not_0 s : 0 ∉ s → pg_text s = Some (to_well_formed s).
Proof.
  intros H. destruct (pg_text s) as [t|] eqn:E.
  - by apply pg_text_Some in E as [_ ->].
  - by apply pg_text_None in E.
Qed.

(** C6, as stated: a sender outside the conversation who sends a blank text
    is answered with the validation error, not Forbidden. *)
Lemma blank_text_is_refused_first : ¬ refusals_by_condition.
Proof.
  intros H.
  destruct (H db1 (req_user_of_row cy) (js "u1_u2") (Some (js "   ")) 1%Z (js "k3x9q0a1z")
              20%Z) as [H1 _].
  specialize (H1 conversation_row1).
  assert (E : sendMessage db1 (req_user_of_row cy) (js "u1_u2") (Some (js "   ")) 1
                (js "k3x9q0a1z") 20 = (ValidationError_message, db1))
    by (vm_compute; reflexivity).
  rewrite E in H1. discriminate H1.
  - vm_compute; reflexivity.
  - apply (bool_decide_unpack _). vm_compute. exact I.
Qed.

(** C6, amended: a send checks the text first: a text that is missing or
    empty after trimming is refused with the validation error, whoever
    sends it and whatever the conversation.  For a text that is not: a
    conversation identifier that holds the code unit 0 is refused with the
    internal error; otherwise a conversation that does not exist is refused
    with the not-found answer, and a sender who is not among the
    participants of the conversation with the forbidden answer.  A sender
    who is not a participant is refused whatever the text, and every send
    other than one answered 201 leaves the database as it is.  The
    conversation is looked up under the identifier as the driver sends
    it. *)
Theorem sendMessage_rejections st user conversationId text now rnd time :
  let out := sendMessage st user conversationId text now rnd time in
  (blank text → out = (ValidationError_message, st))
  ∧ (¬ blank text → 0 ∈ conversationId →
     out = (Fail 500 "Server error while sending message", st))
  ∧ (¬ blank text → 0 ∉ conversationId →
     conversations st !! to_well_formed conversationId = None →
     out = (NotFound_conversation, st))
  ∧ (∀ row, 0 ∉ conversationId →
       conversations st !! to_well_formed conversationId = Some row →
       ru_uid user ∉ c_participants row →
       (¬ blank text → out = (Forbidden, st))
       ∧ ∃ status error, out = (Fail status error, st))
  ∧ (out.2 = st ∨ ∃ body, out.1 = Json 201 body).
Proof.
  assert (Hlen : ∀ t : jsstring, Nat.eqb (length t) 0 = true ↔ t = [])
    by (intros [|? ?]; done).
  assert (Hblank : ∀ raw, ¬ blank (Some raw) →
            sendMessage st user conversationId (Some raw) now rnd time =
            match select_conversation st conversationId with
            | None => (Fail 500 "Server error while sending message", st)
            | Some None => (NotFound_conversation, st)
            | Some (Some crow) =>
                if negb (includes (c_participants crow) (ru_uid user)) then (Forbidden, st)
                else sendMessage st user conversationId (Some raw) now rnd time
            end).
  { intros raw Hb. unfold sendMessage at 1. destruct raw as [|c t]; [by destruct Hb|].
    set (raw := c :: t) in *. clearbody raw. clear c t.
    destruct (Nat.eqb _ _) eqn:El; [by apply Hlen in El|].
    destruct (select_conversation st conversationId) as [[crow|]|] eqn:Es; try done.
    destruct (negb _) eqn:Hn; [done|].
    unfold sendMessage. destruct raw as [|c t]; [by destruct Hb|].
    set (raw := c :: t) in *. clearbody raw. clear c t.
    by rewrite El, Es, Hn. }
  intros out. split; [|split; [|split; [|split]]].
  - subst out. unfold sendMessage. destruct text as [[|c t]|]; try done.
    set (raw := c :: t). clearbody raw. intros Hb. simpl in Hb. by rewrite Hb.
  - intros Hb H0. destruct text as [raw|]; [|by destruct Hb]. subst out.
    rewrite (Hblank raw Hb). unfold select_conversation.
    apply pg_text_None in H0. by rewrite H0.
  - intros Hb H0 Hc. destruct text as [raw|]; [|by destruct Hb]. subst out.
    rewrite (Hblank raw Hb). unfold select_conversation.
    rewrite (pg_text_not_0 _ H0). simpl. by rewrite Hc.
  - intros row H0 Hc Hp. rewrite <- includes_elem in Hp. apply not_true_is_false in Hp.
    assert (Hf : ¬ blank text → out = (Forbidden, st)).
    { intros Hb. destruct text as [raw|]; [|by destruct Hb]. subst out.
      rewrite (Hblank raw Hb). unfold select_conversation.
      rewrite (pg_text_not_0 _ H0). simpl. by rewrite Hc, Hp. }
    split; [exact Hf|].
    destruct (sendMessage_state st user conversationId text now rnd time)
      as [[E1 E2]|(raw & cid & crow & id & sender & name & stored & E)].
    + fold out in E1, E2. destruct out as [[status body|status error] st''].
      * by destruct (E2 status body).
      * simpl in E1. subst st''. eauto.
    + destruct E as (-> & Hraw & _). rewrite Hf by done. eauto.
  - destruct (sendMessage_state st user conversationId text now rnd time)
      as [[E1 _]|(raw & cid & crow & id & sender & name & stored & E)].
    + by left.
    + right. destruct E as (_ & _ & _ & _ & _ & _ & _ & _ & _ & _ & E).
      fold out in E. rewrite E. eauto.
Qed.

Lemma sendMessage_rejections_witness :
  (blank (Some (js "   "))
   ∧ sendMessage db1 (req_user_of_row bo) (js "u1_u2") (Some (js "   ")) 1 (js "k3x9q0a1z") 20
     = (ValidationError_message, db1))
  ∧ (¬ blank (Some (js "hello")) ∧ (0 ∈ js "u1_u2" ++ [0])
     ∧ sendMessage db1 (req_user_of_row acme) (js "u1_u2" ++ [0]) (Some (js "hello")) 1
         (js "k3x9q0a1z") 20 = (Fail 500 "Server error while sending message", db1))
  ∧ ((0 ∉ js "u1_u3") ∧ conversations db1 !! to_well_formed (js "u1_u3") = None
     ∧ sendMessage db1 (req_user_of_row acme) (js "u1_u3") (Some (js "hello")) 1
         (js "k3x9q0a1z") 20 = (NotFound_conversation, db1))
  ∧ ((0 ∉ js "u1_u2")
     ∧ conversations db1 !! to_well_formed (js "u1_u2") = Some conversation_row1
     ∧ (ru_uid (req_user_of_row cy) ∉ c_participants conversation_row1)
     ∧ sendMessage db1 (req_user_of_row cy) (js "u1_u2") (Some (js "hello")) 1
         (js "k3x9q0a1z") 20 = (Forbidden, db1)).
Proof.
  assert (B1 : blank (Some (js "   "))) by reflexivity.
  assert (B2 : ¬ blank (Some (js "hello"))) by discriminate.
  assert (Z1 : 0 ∈ js "u1_u2" ++ [0]) by (apply elem_of_app; right; left).
  assert (Z2 : 0 ∉ js "u1_u3") by (apply (bool_decide_unpack _); vm_compute; exact I).
  assert (Z3 : 0 ∉ js "u1_u2") by (apply (bool_decide_unpack _); vm_compute; exact I).
  assert (N : conversations db1 !! to_well_formed (js "u1_u3") = None)
    by (vm_compute; reflexivity).
  assert (S : conversations db1 !! to_well_formed (js "u1_u2") = Some conversation_row1)
    by (vm_compute; reflexivity).
  assert (P : ru_uid (req_user_of_row cy) ∉ c_participants conversation_row1)
    by (apply (bool_decide_unpack _); vm_compute; exact I).
  split; [split; [exact B1|]|split; [split; [exact B2|split; [exact Z1|]]
         |split; [split; [exact Z2|split; [exact N|]]
                 |split; [exact Z3|split; [exact S|split; [exact P|]]]]]].
  - exact (proj1 (sendMessage_rejections db1 (req_user_of_row bo) (js "u1_u2")
                    (Some (js "   ")) 1 (js "k3x9q0a1z") 20) B1).
  - exact (proj1 (proj2 (sendMessage_rejections db1 (req_user_of_row acme)
                           (js "u1_u2" ++ [0]) (Some (js "hello")) 1 (js "k3x9q0a1z") 20))
             B2 Z1).
  - exact (proj1 (proj2 (proj2 (sendMessage_rejections db1 (req_user_of_row acme)
                                  (js "u1_u3") (Some (js "hello")) 1 (js "k3x9q0a1z") 20)))
             B2 Z2 N).
  - exact (proj1 (proj1 (proj2 (proj2 (proj2 (sendMessage_rejections db1
             (req_user_of_row cy) (js "u1_u2") (Some (js "hello")) 1 (js "k3x9q0a1z") 20))))
             conversation_row1 Z3 S P) B2).
Defined.

(** *** Listing *)

Lemma insert_desc_Forall (P : message_row → Prop) m l :
  P m → Forall P l → Forall P (insert_desc m l).
Proof.
  intros Hm. induction 1 as [|x l Hx Hl IH]; simpl; [by repeat constructor|].
  destruct (_ <=? _)%Z; by repeat constructor.
Qed.

Lemma insert_desc_sorted m l :
  StronglySorted newer_first l → StronglySorted newer_first (insert_desc m l).
Proof.
  induction 1 as [|x l Hl IH Hx]; simpl; [by repeat constructor|].
  destruct (Z.leb_spec (m_timestamp x) (m_timestamp m)) as [Hle|Hgt].
  - constructor; [by constructor|]. constructor; [done|].
    eapply Forall_impl; [exact Hx|]. unfold newer_first. intros y Hy. lia.
  - constructor; [exact IH|]. apply insert_desc_Forall; [|done]. unfold newer_first. lia.
Qed.

Lemma order_by_desc_sorted rows : StronglySorted newer_first (foldr insert_desc [] rows).
Proof. induction rows; simpl; [constructor|by apply insert_desc_sorted]. Qed.

Lemma StronglySorted_take {A} (R : relation A) n l :
  StronglySorted R l → StronglySorted R (take n l).
Proof.
  intros H. revert n. induction H as [|x l Hl IH Hx]; intros [|n]; simpl; try constructor.
  - apply IH.
  - by apply Forall_take.
Qed.

Lemma StronglySorted_reverse {A} (R : relation A) l :
  StronglySorted R l → StronglySorted (flip R) (reverse l).
Proof.
  induction 1 as [|x l Hl IH Hx]; [constructor|].
  rewrite reverse_cons. apply StronglySorted_app_2; [|exact IH|by repeat constructor].
  intros y z Hy ->%list_elem_of_singleton. rewrite elem_of_reverse in Hy.
  rewrite Forall_forall in Hx. by apply Hx.
Qed.

(** The messages of an answer come in ascending order of timestamp. *)
Lemma listMessages_ascending st user conversationId page limit status msgs conv :
  listMessages st user conversationId page limit = Json status (msgs, conv) →
  StronglySorted Z.le (map msg_timestamp msgs).
Proof.
  unfold listMessages, listMessages_by.
  destruct (select_conversation st conversationId) as [[crow|]|]; try done.
  destruct (negb _); [done|].
  unfold select_messages_by. destruct (pg_text conversationId) as [cid|]; [|done]. simpl.
  destruct (parseInt _) as [| |n]; try done.
  destruct (_ || _); [done|]. intros [= <- <- <-].
  rewrite <- fmap_reverse. rewrite <- list_fmap_compose.
  pose proof (order_by_desc_sorted
    (filter (λ m, m_conversation_id m = cid) (messages st))) as S.
  apply (StronglySorted_take _ (Z.to_nat n)), StronglySorted_reverse in S.
  induction S as [|x l Hl IH Hx]; simpl; constructor; [exact IH|].
  apply Forall_fmap. exact Hx.
Qed.

(** The answer does not depend on the page asked for. *)
Lemma listMessages_page_unused st user conversationId page page' limit :
  listMessages st user conversationId page limit
  = listMessages st user conversationId page' limit.
Proof. reflexivity. Qed.

(** C5, at page 2 with one message per page: the conversation holds an
    older and a newer message; page 1 and page 2 both answer with the newer
    one, and the older one is on no page. *)
Theorem listMessages_second_page :
  sendMessage db1 (req_user_of_row acme) (js "u1_u2") (Some (js "hello")) 1
    (js "k3x9q0a1z") 20 = (Json 201 (message_of_row message_row1, false), db2)
  ∧ sendMessage db2 (req_user_of_row bo) (js "u1_u2") (Some (js " mail bo@mail.io ")) 2
      (js "p7m2c4d8e") 30 = (Json 201 (message_of_row message_row2, true), db3)
  ∧ listMessages db3 (req_user_of_row bo) (js "u1_u2") (Some (js "1")) (Some (js "1"))
    = Json 200 ([message_of_row message_row2], conversation_of_row conversation_row3)
  ∧ listMessages db3 (req_user_of_row bo) (js "u1_u2") (Some (js "2")) (Some (js "1"))
    = Json 200 ([message_of_row message_row2], conversation_of_row conversation_row3).
Proof. by vm_compute. Qed.

(** * Further properties of the filter *)

(** *** Where the matcher calls its continuation *)

Lemma rep_calls_cont p k s : ∀ lo hi prev res,
  rep p lo hi k prev s = Some res →
  ∃ prev' pre s', s = pre ++ s' ∧ k prev' s' = Some res
                  ∧ (lo ≠ O → pre ≠ []) ∧ Forall (fun c => p c = true) pre.
Proof.
  induction s as [|c s IH]; intros lo hi prev res; simpl.
  - destruct lo; [|done]. intros H. by exists prev, [], [].
  - assert (Hstop : match lo with O => k prev (c :: s) | S _ => None end = Some res →
      ∃ prev' pre s', c :: s = pre ++ s' ∧ k prev' s' = Some res
                      ∧ (lo ≠ O → pre ≠ []) ∧ Forall (fun c => p c = true) pre).
    { destruct lo; [|done]. intros H. by exists prev, [], (c :: s). }
    destruct (p c && can_take hi) eqn:E; [|exact Hstop].
    destruct (rep p (pred lo) (one_less hi) k (Some c) s) as [rest|] eqn:R; [|exact Hstop].
    intros [= ->]. apply IH in R as (prev' & pre & s' & -> & Hk & _ & Hp).
    exists prev', (c :: pre), s'. repeat split; [done..|].
    constructor; [|done]. by apply andb_prop in E as [E _].
Qed.

Lemma matcher_calls_cont r : ∀ k prev s res,
  matcher r k prev s = Some res →
  ∃ prev' pre s', s = pre ++ s' ∧ k prev' s' = Some res
                  ∧ (consumes r = true → pre ≠ []).
Proof.
  induction r as [|p|r1 IH1 r2 IH2|r1 IH1 r2 IH2|r1 IH1|p lo hi|]; intros k prev s res; simpl.
  - intros H. by exists prev, [], s.
  - destruct s as [|c s]; [done|]. destruct (p c); [|done].
    intros H. by exists (Some c), [c], s.
  - intros (prev1 & pre1 & s1 & -> & H1 & C1)%IH1.
    apply IH2 in H1 as (prev2 & pre2 & s2 & -> & H2 & C2).
    exists prev2, (pre1 ++ pre2), s2. rewrite <- (assoc_L (++)). repeat split; [done|].
    intros [C|C]%orb_prop; intros [E1 E2]%app_eq_nil; [by apply C1|by apply C2].
  - destruct (matcher r1 k prev s) as [rest|] eqn:M.
    + intros [= ->]. apply IH1 in M as (prev' & pre & s' & -> & H & C).
      exists prev', pre, s'. repeat split; [done|]. by intros [? _]%andb_prop; apply C.
    + intros (prev' & pre & s' & -> & H & C)%IH2.
      exists prev', pre, s'. repeat split; [done|]. by intros [_ ?]%andb_prop; apply C.
  - destruct (matcher r1 _ prev s) as [rest|] eqn:M.
    + intros [= ->]. apply IH1 in M as (prev' & pre & s' & -> & H & _).
      destruct (Nat.eqb _ _); [done|]. by exists prev', pre, s'.
    + intros H. by exists prev, [], s.
  - intros (prev' & pre & s' & -> & H & C & _)%rep_calls_cont.
    exists prev', pre, s'. repeat split; [done|].
    intros E. apply C. by destruct lo.
  - destruct (xorb _ _); [|done]. intros H. by exists prev, [], s.
Qed.

Lemma match_len_pos r prev s : consumes r = true → match_len r prev s ≠ Some O.
Proof.
  intros C. unfold match_len.
  destruct (matcher r _ prev s) as [rest|] eqn:M; [|done].
  apply matcher_calls_cont in M as (_ & pre & s' & -> & [= ->] & Hpre).
  specialize (Hpre C). rewrite length_app. destruct pre; [done|]. simpl. intros [=]. lia.
Qed.

(** *** Where the matcher is sure to succeed *)

Lemma rep_succeeds p k s : ∀ j lo hi prev,
  (lo ≤ j)%nat → allows hi j → (j ≤ length s)%nat →
  Forall (fun c => p c = true) (take j s) →
  (∀ prev', is_Some (k prev' (drop j s))) →
  is_Some (rep p lo hi k prev s).
Proof.
  induction s as [|c s IH]; intros j lo hi prev Hlo Hhi Hj Hp Hk.
  - simpl in *. assert (j = O) as -> by lia. assert (lo = O) as -> by lia. apply Hk.
  - destruct j as [|j].
    + assert (lo = O) as -> by lia. simpl.
      destruct (p c && can_take hi); [|apply Hk].
      destruct (rep p _ _ k (Some c) s); [done|apply Hk].
    + simpl in Hp, Hk, Hj. apply Forall_cons in Hp as [Hc Hp].
      assert (is_Some (rep p (pred lo) (one_less hi) k (Some c) s)) as [rest R].
      { apply (IH j); [lia| |lia|done|done].
        destruct hi as [h|]; simpl in *; [lia|done]. }
      simpl. rewrite Hc. replace (can_take hi) with true
        by (destruct hi as [[|h]|]; simpl in *; [lia|done..]).
      simpl. by rewrite R.
Qed.

Lemma matcher_Seq r1 r2 k prev s :
  matcher (Seq r1 r2) k prev s = matcher r1 (matcher r2 k) prev s.
Proof. reflexivity. Qed.

Lemma matcher_Rep p lo hi k prev s : matcher (Rep p lo hi) k prev s = rep p lo hi k prev s.
Proof. reflexivity. Qed.

Lemma opt_skip r k prev s : is_Some (k prev s) → is_Some (matcher (Opt r) k prev s).
Proof. intros H. simpl. by destruct (matcher r _ prev s). Qed.

(** *** Runs that a replacement clears *)

Lemma starts_with_masked s o : masked s o → ∀ ps,
  Forall (fun p : N → bool => p 42 = false) ps →
  starts_with ps o = true → starts_with ps s = true.
Proof.
  induction 1 as [|c s o _ IH|pre s o _ _]; intros ps Hps; destruct ps as [|p ps]; try done.
  - simpl. intros [Hc Hr]%andb_prop. rewrite Hc. simpl.
    apply IH; [|done]. by inversion Hps.
  - rewrite mask_stars. simpl. inversion_clear Hps as [|?? Hp _]. by rewrite Hp.
Qed.

Lemma has_run_app_r ps pre s : has_run ps (pre ++ s) = false → has_run ps s = false.
Proof.
  induction pre as [|c pre IH]; [done|].
  simpl. intros [_ H]%orb_false_elim. by apply IH.
Qed.

Lemma has_run_mask_app ps o :
  ps ≠ [] → Forall (fun p : N → bool => p 42 = false) ps →
  has_run ps o = false → has_run ps (mask ++ o) = false.
Proof.
  intros Hne Hps Ho. destruct ps as [|p ps]; [done|].
  inversion_clear Hps as [|?? Hp _]. rewrite mask_stars. simpl. rewrite Hp. simpl. exact Ho.
Qed.

(** Masking segments of a string creates no run of classes that refuse the
    asterisk. *)
Lemma has_run_masked s o : masked s o → ∀ ps,
  ps ≠ [] → Forall (fun p : N → bool => p 42 = false) ps →
  has_run ps s = false → has_run ps o = false.
Proof.
  induction 1 as [|c s o Hm IH|pre s o Hm IH]; intros ps Hne Hps; [done| |].
  - simpl. intros [Hp Ho]%orb_false_elim.
    apply orb_false_intro; [|by apply IH].
    destruct (starts_with ps (c :: o)) eqn:E; [|done].
    apply (starts_with_masked (c :: s)) in E; [|by constructor|done].
    simpl in E. congruence.
  - intros Ho. apply has_run_mask_app; [done..|].
    apply IH; [done..|]. by apply has_run_app_r in Ho.
Qed.

(** A pattern that matches wherever a run starts, and never the empty
    string, leaves no run behind. *)
Lemma replace_from_no_run r ps :
  consumes r = true → ps ≠ [] → Forall (fun p : N → bool => p 42 = false) ps →
  (∀ prev s, match_len r prev s = None → starts_with ps s = false) →
  ∀ s prev skip, has_run ps (replace_from r mask prev s skip) = false.
Proof.
  intros C Hne Hps Hr. induction s as [|c s IH]; intros prev skip; simpl.
  - assert (E : has_run ps [] = false) by (by destruct ps).
    destruct skip; [destruct (match_len r prev [])|]; [|done..].
    rewrite <- (app_nil_r mask). by apply has_run_mask_app.
  - destruct skip as [|n]; [|apply IH].
    pose proof (match_len_pos r prev (c :: s) C) as P.
    destruct (match_len r prev (c :: s)) as [[|n]|] eqn:M; [done| |].
    + apply has_run_mask_app; [done..|apply IH].
    + simpl. apply orb_false_intro; [|apply IH].
      destruct (starts_with ps (c :: replace_from r mask (Some c) s 0)) eqn:E; [|done].
      apply (starts_with_masked (c :: s)) in E; [|constructor|done].
      * by rewrite (Hr _ _ M) in E.
      * generalize (replace_from_masked r s (Some c) O). by rewrite drop_0.
Qed.

Lemma social_matches_handles prev s :
  match_len socialRegex prev s = None → starts_with handle_start s = false.
Proof.
  intros M. destruct (starts_with handle_start s) eqn:E; [|done]. exfalso.
  unfold handle_start in E.
  destruct s as [|c [|d s]]; cbn [starts_with] in E; try done;
    [by rewrite andb_false_r in E|].
  rewrite andb_true_r in E. apply andb_prop in E as [Ec Ed].
  unfold match_len, socialRegex in M. cbn [cat foldr lit matcher] in M. rewrite Ec in M.
  destruct (rep_succeeds handle_part (fun _ rest => Some rest) (d :: s)
              1 1 None (Some c)) as [rest R]; [lia|done|simpl; lia| |done|].
  - by repeat constructor.
  - by rewrite R in M.
Qed.

Lemma phone_matches_digits prev s :
  match_len phoneRegex prev s = None → starts_with three_digits s = false.
Proof.
  intros M. destruct (starts_with three_digits s) eqn:E; [|done]. exfalso.
  unfold three_digits in E.
  destruct s as [|a [|b [|c s]]]; cbn [starts_with] in E; try done;
    [by rewrite andb_false_r in E|by rewrite !andb_false_r in E|].
  rewrite andb_true_r in E. apply andb_prop in E as [Ea [Eb Ec]%andb_prop].
  assert (S : is_Some (matcher phoneRegex (fun _ rest => Some rest) prev (a :: b :: c :: s))).
  { unfold phoneRegex. cbn [cat foldr].
    rewrite matcher_Seq. apply opt_skip. rewrite matcher_Seq. apply opt_skip.
    rewrite matcher_Seq, matcher_Rep.
    apply (rep_succeeds _ _ _ 1); [lia|simpl; lia|simpl; lia|by repeat constructor|].
    intros p1. cbn [drop].
    rewrite matcher_Seq. apply opt_skip. rewrite matcher_Seq. apply opt_skip.
    rewrite matcher_Seq, matcher_Rep.
    apply (rep_succeeds _ _ _ 1); [lia|simpl; lia|simpl; lia|by repeat constructor|].
    intros p2. cbn [drop].
    rewrite matcher_Seq. apply opt_skip. rewrite matcher_Seq, matcher_Rep.
    apply (rep_succeeds _ _ _ 1); [lia|simpl; lia|simpl; lia|by repeat constructor|].
    intros p3. done. }
  unfold match_len in M. destruct S as [rest S]. by rewrite S in M.
Qed.

(** The filter hands over its input with segments masked. *)
Lemma masked_trans a b c : masked a b → masked b c → ∀ ps,
  ps ≠ [] → Forall (fun p : N → bool => p 42 = false) ps →
  has_run ps a = false → has_run ps c = false.
Proof. intros H1 H2 ps Hne Hps Ha. eauto using has_run_masked. Qed.

Lemma has_run_drop ps s i : has_run ps s = false → starts_with ps (drop i s) = false.
Proof.
  revert i. induction s as [|c s IH]; intros i H.
  - rewrite drop_nil. simpl in H. by apply orb_false_elim in H as [H _].
  - simpl in H. apply orb_false_elim in H as [H1 H2].
    destruct i as [|i]; [done|]. simpl. by apply IH.
Qed.

Lemma filter_no_handles message :
  has_run handle_start (filterSensitiveContent message) = false.
Proof.
  unfold filterSensitiveContent, replace.
  apply replace_from_no_run; [done|done|by repeat constructor|].
  apply social_matches_handles.
Qed.

Lemma filter_no_digit_runs message :
  has_run three_digits (filterSensitiveContent message) = false.
Proof.
  unfold filterSensitiveContent.
  assert (Hps : Forall (fun p : N → bool => p 42 = false) three_digits)
    by (by repeat constructor).
  eapply has_run_masked; [apply replace_masked|done|done|].
  eapply has_run_masked; [apply replace_masked|done|done|].
  unfold replace. apply replace_from_no_run; [done|done|done|].
  apply phone_matches_digits.
Qed.


(** *** Text the patterns do not touch *)

Lemma email_needs_at prev s : is_Some (match_len emailRegex prev s) → 64 ∈ s.
Proof.
  unfold match_len, emailRegex. cbn [cat foldr].
  destruct (matcher _ _ prev s) as [rest|] eqn:M; [intros _|by intros [? [=]]].
  rewrite matcher_Seq in M. apply matcher_calls_cont in M as (p1 & pre1 & s1 & -> & M & _).
  rewrite matcher_Seq in M. apply matcher_calls_cont in M as (p2 & pre2 & s2 & -> & M & _).
  rewrite matcher_Seq in M. cbn [lit matcher] in M.
  destruct s2 as [|c s2]; [done|]. destruct (N.eqb_spec 64 c) as [<-|]; [|done].
  rewrite !elem_of_app. right. right. by left.
Qed.

Lemma social_needs_at prev s : is_Some (match_len socialRegex prev s) → 64 ∈ s.
Proof.
  unfold match_len, socialRegex. cbn [cat foldr].
  destruct (matcher _ _ prev s) as [rest|] eqn:M; [intros _|by intros [? [=]]].
  rewrite matcher_Seq in M. cbn [lit matcher] in M.
  destruct s as [|c s]; [done|]. destruct (N.eqb_spec 64 c) as [<-|]; [|done]. by left.
Qed.

Lemma phone_needs_digit prev s :
  is_Some (match_len phoneRegex prev s) → ∃ c, c ∈ s ∧ is_digit c = true.
Proof.
  unfold match_len, phoneRegex. cbn [cat foldr].
  destruct (matcher _ _ prev s) as [rest|] eqn:M; [intros _|by intros [? [=]]].
  rewrite matcher_Seq in M. apply matcher_calls_cont in M as (p1 & pre1 & s1 & -> & M & _).
  rewrite matcher_Seq in M. apply matcher_calls_cont in M as (p2 & pre2 & s2 & -> & M & _).
  rewrite matcher_Seq, matcher_Rep in M.
  apply rep_calls_cont in M as (p3 & pre3 & s3 & -> & _ & Hne & Hd).
  destruct pre3 as [|c pre3]; [by destruct Hne|].
  exists c. split; [|by inversion Hd].
  rewrite !elem_of_app. right. right. left. by left.
Qed.

Lemma whatsapp_needs_keyword prev s :
  is_Some (match_len whatsappRegex prev s) → ∃ w, w ∈ keywords ∧ prefix_by ci_eq w s = true.
Proof.
  unfold match_len, whatsappRegex. cbn [matcher]. rewrite !matcher_word_ci.
  destruct (prefix_by ci_eq (js "whatsapp") s) eqn:E1;
    [intros _; eexists; split; [|exact E1]; unfold keywords; set_solver|].
  destruct (prefix_by ci_eq (js "wa.me") s) eqn:E2;
    [intros _; eexists; split; [|exact E2]; unfold keywords; set_solver|].
  destruct (prefix_by ci_eq (js "t.me") s) eqn:E3;
    [intros _; eexists; split; [|exact E3]; unfold keywords; set_solver|].
  destruct (prefix_by ci_eq (js "telegram") s) eqn:E4;
    [intros _; eexists; split; [|exact E4]; unfold keywords; set_solver|].
  by intros [? [=]].
Qed.

Lemma occurs_by_suffix eqb w pre s :
  occurs_by eqb w (pre ++ s) = false → prefix_by eqb w s = false.
Proof.
  intros H%occurs_app_r. destruct s; simpl in H; by apply orb_false_elim in H as [H _].
Qed.

(** A pattern that matches at no position of a string leaves it as it is. *)
Lemma replace_no_match r s :
  (∀ pre s' prev, s = pre ++ s' → match_len r prev s' = None) → replace r mask s = s.
Proof.
  unfold replace. generalize (@None N) as prev.
  induction s as [|c s IH]; intros prev H; simpl.
  - by rewrite (H [] []).
  - rewrite (H [] (c :: s)) by done. f_equal. apply IH.
    intros pre s' prev' ->. by apply (H (c :: pre)).
Qed.

Lemma filter_plain s :
  64 ∉ s → (∀ c, c ∈ s → is_digit c = false) →
  (∀ w, w ∈ keywords → occurs_ci w s = false) →
  filterSensitiveContent s = s.
Proof.
  intros Hat Hd Hk. unfold filterSensitiveContent.
  rewrite (replace_no_match emailRegex s).
  2:{ intros pre s' prev ->. apply eq_None_not_Some. intros H%email_needs_at.
      apply Hat. rewrite elem_of_app. by right. }
  rewrite (replace_no_match phoneRegex s).
  2:{ intros pre s' prev ->. apply eq_None_not_Some.
      intros (c & Hc & Hdc)%phone_needs_digit.
      rewrite (Hd c) in Hdc; [done|]. rewrite elem_of_app. by right. }
  rewrite (replace_no_match whatsappRegex s).
  2:{ intros pre s' prev ->. apply eq_None_not_Some.
      intros (w & Hw & Hp)%whatsapp_needs_keyword.
      specialize (Hk w Hw). apply occurs_by_suffix in Hk. congruence. }
  apply replace_no_match.
  intros pre s' prev ->. apply eq_None_not_Some. intros H%social_needs_at.
  apply Hat. rewrite elem_of_app. by right.
Qed.

Lemma filter_nil_iff s : filterSensitiveContent s = [] ↔ s = [].
Proof.
  split; [|by intros ->].
  assert (Hne : ∀ r t, t ≠ [] → replace r mask t ≠ []).
  { intros r [|c t] Ht; [done|]. unfold replace. simpl.
    by destruct (match_len r None (c :: t)) as [[|n]|]. }
  unfold filterSensitiveContent. intros H.
  destruct (decide (s = [])) as [|Hs]; [done|]. exfalso.
  apply (Hne emailRegex), (Hne phoneRegex), (Hne whatsappRegex), (Hne socialRegex) in Hs.
  by apply Hs.
Qed.

(** *** Extras on the content filter *)

(** X1: in the output of the filter no at sign is followed by a letter, a
    digit, a dot or an underscore. *)
Theorem filter_masks_handles message i d :
  filterSensitiveContent message !! i = Some 64 →
  filterSensitiveContent message !! S i = Some d →
  handle_part d = false.
Proof.
  intros H1 H2. pose proof (has_run_drop _ _ i (filter_no_handles message)) as H.
  rewrite (drop_S _ 64 i) in H by done. rewrite (drop_S _ d (S i)) in H by done.
  simpl in H. by destruct (handle_part d).
Qed.

Lemma filter_masks_handles_witness :
  filterSensitiveContent (js "hi @-bo") !! 3%nat = Some 64
  ∧ filterSensitiveContent (js "hi @-bo") !! 4%nat = Some 45
  ∧ handle_part 45 = false.
Proof.
  assert (H1 : filterSensitiveContent (js "hi @-bo") !! 3%nat = Some 64)
    by (vm_compute; reflexivity).
  assert (H2 : filterSensitiveContent (js "hi @-bo") !! 4%nat = Some 45)
    by (vm_compute; reflexivity).
  split; [exact H1|]. split; [exact H2|].
  exact (filter_masks_handles (js "hi @-bo") 3 45 H1 H2).
Defined.

(** X2: the output of the filter never holds three digits in a row. *)
Theorem filter_masks_digit_runs message i a b c :
  filterSensitiveContent message !! i = Some a →
  filterSensitiveContent message !! S i = Some b →
  filterSensitiveContent message !! S (S i) = Some c →
  is_digit a && is_digit b && is_digit c = false.
Proof.
  intros H1 H2 H3. pose proof (has_run_drop _ _ i (filter_no_digit_runs message)) as H.
  rewrite (drop_S _ a i) in H by done. rewrite (drop_S _ b (S i)) in H by done.
  rewrite (drop_S _ c (S (S i))) in H by done.
  simpl in H. rewrite andb_true_r in H. by rewrite <- andb_assoc.
Qed.

Lemma filter_masks_digit_runs_witness :
  filterSensitiveContent (js "at 12pm") !! 3%nat = Some 49
  ∧ filterSensitiveContent (js "at 12pm") !! 4%nat = Some 50
  ∧ filterSensitiveContent (js "at 12pm") !! 5%nat = Some 112
  ∧ is_digit 49 && is_digit 50 && is_digit 112 = false.
Proof.
  assert (H1 : filterSensitiveContent (js "at 12pm") !! 3%nat = Some 49)
    by (vm_compute; reflexivity).
  assert (H2 : filterSensitiveContent (js "at 12pm") !! 4%nat = Some 50)
    by (vm_compute; reflexivity).
  assert (H3 : filterSensitiveContent (js "at 12pm") !! 5%nat = Some 112)
    by (vm_compute; reflexivity).
  split; [exact H1|]. split; [exact H2|]. split; [exact H3|].
  exact (filter_masks_digit_runs (js "at 12pm") 3 49 50 112 H1 H2 H3).
Defined.


(** X4: a text without at sign, without digit and without keyword passes
    the filter as it is, and is not flagged. *)
Theorem filter_keeps_plain_text s :
  Forall (fun c => c ≠ 64 ∧ is_digit c = false) s →
  Forall (fun w => occurs_ci w s = false) keywords →
  contentFilter s = (s, false).
Proof.
  rewrite !Forall_forall. intros Hs Hk. unfold contentFilter.
  rewrite filter_plain.
  - f_equal. by apply bool_decide_eq_false_2; intros H.
  - intros H. by destruct (Hs _ H).
  - intros c H. by destruct (Hs _ H).
  - done.
Qed.

Lemma filter_keeps_plain_text_witness :
  Forall (fun c => c ≠ 64 ∧ is_digit c = false) (js "Sounds good, see you there!")
  ∧ Forall (fun w => occurs_ci w (js "Sounds good, see you there!") = false) keywords
  ∧ contentFilter (js "Sounds good, see you there!") = (js "Sounds good, see you there!", false).
Proof.
  assert (H1 : Forall (fun c => c ≠ 64 ∧ is_digit c = false)
                 (js "Sounds good, see you there!"))
    by (repeat (constructor; [split; [discriminate|reflexivity]|]); constructor).
  assert (H2 : Forall (fun w => occurs_ci w (js "Sounds good, see you there!") = false)
                 keywords)
    by (repeat (constructor; [reflexivity|]); constructor).
  split; [exact H1|]. split; [exact H2|].
  exact (filter_keeps_plain_text _ H1 H2).
Defined.

(** * Further properties of the handlers *)

(** *** Identifiers of conversations *)

Lemma app_underscore_inj x x' y y' :
  95 ∉ x → 95 ∉ x' → x ++ 95 :: y = x' ++ 95 :: y' → x = x' ∧ y = y'.
Proof.
  revert x'. induction x as [|c x IH]; intros [|c' x'] Hx Hx'; simpl; intros H.
  - by injection H as ->.
  - injection H as <- _. destruct Hx'. by left.
  - injection H as -> _. destruct Hx. by left.
  - injection H as -> H. rewrite not_elem_of_cons in Hx, Hx'.
    destruct (IH x') as [-> ->]; [by destruct Hx|by destruct Hx'|done|done].
Qed.

Lemma conversationId_of_eq a b :
  conversationId_of a b = if str_lt b a then b ++ 95 :: a else a ++ 95 :: b.
Proof. unfold conversationId_of. rewrite sort_pair. by destruct (str_lt b a). Qed.

(** X5: for identifiers without underscore, the identifier of the
    conversation determines the pair of users. *)
Theorem conversationId_of_inj a b c d :
  95 ∉ a → 95 ∉ b → 95 ∉ c → 95 ∉ d →
  conversationId_of a b = conversationId_of c d →
  (a = c ∧ b = d) ∨ (a = d ∧ b = c).
Proof.
  intros Ha Hb Hc Hd. rewrite !conversationId_of_eq.
  destruct (str_lt b a), (str_lt d c); intros [-> ->]%app_underscore_inj; auto.
Qed.

Lemma conversationId_of_inj_witness :
  ((95 ∉ js "u1") ∧ (95 ∉ js "u2"))
  ∧ conversationId_of (js "u1") (js "u2") = conversationId_of (js "u2") (js "u1")
  ∧ ((js "u1" = js "u2" ∧ js "u2" = js "u1") ∨ (js "u1" = js "u1" ∧ js "u2" = js "u2")).
Proof.
  assert (H1 : 95 ∉ js "u1") by (apply (bool_decide_unpack _); vm_compute; exact I).
  assert (H2 : 95 ∉ js "u2") by (apply (bool_decide_unpack _); vm_compute; exact I).
  assert (E : conversationId_of (js "u1") (js "u2") = conversationId_of (js "u2") (js "u1"))
    by reflexivity.
  split; [by split|]. split; [exact E|].
  exact (conversationId_of_inj (js "u1") (js "u2") (js "u2") (js "u1") H1 H2 H2 H1 E).
Defined.

(** *** What the writing handlers do to the database *)

(** A call of the conversation handler leaves the database as it is, or
    adds one conversation under an identifier that was free. *)
Lemma createOrGetConversation_state st user participantId now1 now2 :
  let out := createOrGetConversation st user participantId now1 now2 in
  (out.2 = st ∧ ∀ body, out.1 ≠ Json 201 body)
  ∨ ∃ pid pd,
      participantId = Some pid ∧ pid ≠ ru_uid user ∧ users st !! pid = Some pd
      ∧ pairing_rule (ru_role user) (role pd)
      ∧ conversations st !! conversationId_of (ru_uid user) pid = None
      ∧ out =
        (Json 201
           (conversationId_of (ru_uid user) pid,
            Conversation (conversationId_of (ru_uid user) pid) [ru_uid user; pid]
              (<[pid := Details (js_or (display_name pd) (email pd)) (role pd)]>
                 {[ru_uid user :=
                     Details (js_or (ru_fullName user) (ru_email user)) (ru_role user)]})
              None None now1 now2),
         Db (users st)
           (<[conversationId_of (ru_uid user) pid :=
                ConversationRow (conversationId_of (ru_uid user) pid) [ru_uid user; pid]
                  (<[pid := Details (js_or (display_name pd) (email pd)) (role pd)]>
                     {[ru_uid user :=
                         Details (js_or (ru_fullName user) (ru_email user)) (ru_role user)]})
                  None None None now1 now2]> (conversations st))
           (messages st)).
Proof.
  unfold createOrGetConversation. destruct participantId as [[|c p]|]; try (by left).
  case_bool_decide as Hself; [by left|].
  destruct (users st !! (c :: p)) as [pd|] eqn:Hu; [|by left].
  destruct (existsb _ _) eqn:Hv; [|by left]. simpl.
  apply validCombinations_pairing in Hv.
  destruct (conversations st !! _) as [row|] eqn:E; [by left|].
  right. exists (c :: p), pd. unfold insert_conversation. simpl. by rewrite E.
Qed.

(** *** Extras on get-or-create *)

(** X6: a call of the conversation handler never touches the users or the
    messages, keeps every stored conversation as it is and adds at most
    one; unless it answers 201 it changes nothing. *)
Theorem createOrGetConversation_frame st user participantId now1 now2 :
  let out := createOrGetConversation st user participantId now1 now2 in
  users out.2 = users st
  ∧ messages out.2 = messages st
  ∧ conversations st ⊆ conversations out.2
  ∧ (size (conversations out.2) ≤ S (size (conversations st)))%nat
  ∧ (out.2 = st ∨ ∃ body, out.1 = Json 201 body).
Proof.
  intros out.
  destruct (createOrGetConversation_state st user participantId now1 now2)
    as [[E _]|(pid & pd & _ & _ & _ & _ & Hfree & E)]; fold out in E; rewrite E.
  - repeat split; [done|lia|by left].
  - simpl. repeat split.
    + by apply insert_subseteq.
    + by rewrite map_size_insert_None.
    + right. eauto.
Qed.



Lemma consistent_db1 : consistent db1.
Proof.
  split; simpl.
  - intros cid row [<- <-]%lookup_singleton_Some. done.
  - intros cid row [<- <-]%lookup_singleton_Some. by exists (js "u1"), (js "u2").
  - constructor.
  - intros m Hm. by apply not_elem_of_nil in Hm.
  - intros m Hm. by apply not_elem_of_nil in Hm.
  - intros cid row [<- <-]%lookup_singleton_Some. done.
Qed.

Lemma consistent_no_messages st cid :
  consistent st → conversations st !! cid = None →
  filter (fun m => m_conversation_id m = cid) (messages st) = [].
Proof.
  intros C Hnone.
  destruct (filter _ (messages st)) as [|m l] eqn:F; [done|]. exfalso.
  assert (Hm : m ∈ filter (fun m => m_conversation_id m = cid) (messages st))
    by (rewrite F; by left).
  apply list_elem_of_filter in Hm as [<- Hm].
  destruct (cons_owner st C m Hm) as (row & p & Hrow & _). congruence.
Qed.

(** X8: the conversation handler keeps the chat tables consistent. *)
Theorem createOrGetConversation_consistent st user participantId now1 now2 :
  consistent st →
  consistent (createOrGetConversation st user participantId now1 now2).2.
Proof.
  intros C.
  destruct (createOrGetConversation_state st user participantId now1 now2)
    as [[E _]|(pid & pd & _ & Hself & _ & _ & Hfree & E)]; rewrite E; [done|].
  set (cid := conversationId_of (ru_uid user) pid) in *.
  destruct C as [Ckey Cpair Cids Cowner Ctext Ccache]. split; simpl.
  - intros k row [[<- <-]|[Hk Hrow]]%lookup_insert_Some; [done|by apply Ckey].
  - intros k row [[<- <-]|[Hk Hrow]]%lookup_insert_Some; [|by apply Cpair].
    exists (ru_uid user), pid. simpl. by repeat split.
  - done.
  - intros m Hm. destruct (Cowner m Hm) as (row & p & Hrow & Hs).
    exists row, p. split; [|done]. rewrite lookup_insert_ne; [done|]. congruence.
  - done.
  - intros k row [[<- <-]|[Hk Hrow]]%lookup_insert_Some; [|by apply Ccache].
    simpl. rewrite (consistent_no_messages st cid); [done| |done].
    by constructor.
Qed.

Lemma createOrGetConversation_consistent_witness :
  consistent db1
  ∧ consistent (createOrGetConversation db1 (req_user_of_row acme) (Some (js "u3")) 12 13).2.
Proof.
  split; [exact consistent_db1|].
  exact (createOrGetConversation_consistent db1 (req_user_of_row acme) (Some (js "u3")) 12 13
           consistent_db1).
Defined.

(** X9: in consistent tables, a pair of users that has a conversation is
    never given a second one: the handler does not answer 201 for it, from
    either side. *)
Theorem createOrGetConversation_no_duplicate st user participantId now1 now2 cid row :
  consistent st →
  conversations st !! cid = Some row →
  c_participants row ≡ₚ [ru_uid user; participantId] →
  ∀ body, (createOrGetConversation st user (Some participantId) now1 now2).1 ≠ Json 201 body.
Proof.
  intros C Hrow Hperm body.
  destruct (cons_pair st C cid row Hrow) as (a & b & Hab & _ & Hcid).
  rewrite Hab in Hperm. apply Permutation_length_2 in Hperm.
  assert (Heq : cid = conversationId_of (ru_uid user) participantId).
  { destruct Hperm as [[-> ->]|[-> ->]]; [done|by rewrite conversationId_of_comm]. }
  destruct (createOrGetConversation_state st user (Some participantId) now1 now2)
    as [[_ E]|(pid & pd & [= <-] & _ & _ & _ & Hfree & _)]; [apply E|].
  congruence.
Qed.

Lemma createOrGetConversation_no_duplicate_witness :
  consistent db1
  ∧ conversations db1 !! js "u1_u2" = Some conversation_row1
  ∧ c_participants conversation_row1 ≡ₚ [ru_uid (req_user_of_row bo); js "u1"]
  ∧ ∀ body,
      (createOrGetConversation db1 (req_user_of_row bo) (Some (js "u1")) 12 13).1
      ≠ Json 201 body.
Proof.
  assert (H1 : conversations db1 !! js "u1_u2" = Some conversation_row1)
    by (vm_compute; reflexivity).
  assert (H2 : c_participants conversation_row1 ≡ₚ [ru_uid (req_user_of_row bo); js "u1"])
    by apply perm_swap.
  split; [exact consistent_db1|]. split; [exact H1|]. split; [exact H2|].
  exact (createOrGetConversation_no_duplicate db1 (req_user_of_row bo) (js "u1") 12 13
           (js "u1_u2") conversation_row1 consistent_db1 H1 H2).
Defined.

(** *** Text as the table holds it *)

(** [to_well_formed] changes surrogates, and those into U+FFFD only. *)
Lemma to_well_formed_Forall2 s :
  Forall2 (fun c c' => c' = c ∨ (55296 ≤ c ∧ c' = 65533)) s (to_well_formed s).
Proof.
  assert (Hh : ∀ c, is_high_surrogate c = true → 55296 ≤ c).
  { intros c [H _]%andb_prop. by apply N.leb_le in H. }
  assert (Hl : ∀ c, is_low_surrogate c = true → 55296 ≤ c).
  { intros c [H _]%andb_prop. apply N.leb_le in H. lia. }
  assert (H : ∀ n s, (length s ≤ n)%nat →
            Forall2 (fun c c' => c' = c ∨ (55296 ≤ c ∧ c' = 65533)) s (to_well_formed s)).
  { induction n as [|n IH]; intros [|c t] Hn; simpl in Hn; try lia; [constructor..|].
    cbn [to_well_formed].
    destruct (is_high_surrogate c) eqn:E1.
    - destruct t as [|d t]; [constructor; [right; auto|constructor]|].
      destruct (is_low_surrogate d) eqn:E2.
      + constructor; [by left|]. constructor; [by left|]. apply IH. simpl in Hn. lia.
      + constructor; [right; auto|]. apply IH. lia.
    - destruct (is_low_surrogate c) eqn:E2.
      + constructor; [right; auto|]. apply IH. lia.
      + constructor; [by left|]. apply IH. lia. }
  by apply (H (length s)).
Qed.

Lemma to_well_formed_nil_iff s : to_well_formed s = [] ↔ s = [].
Proof.
  split; [|by intros ->]. intros H. pose proof (to_well_formed_Forall2 s) as F.
  rewrite H in F. by apply Forall2_nil_inv_r in F.
Qed.

Lemma starts_with_replaced ps : ∀ s t,
  Forall2 (fun c c' => c' = c ∨ (55296 ≤ c ∧ c' = 65533)) s t →
  Forall (fun p : N → bool => ∀ c, 55296 ≤ c → p c = false) ps →
  starts_with ps t = starts_with ps s.
Proof.
  induction ps as [|p ps IH]; intros s t F Hps; [by destruct s, t|].
  destruct F as [|c c' s t Hc F]; [done|]. simpl.
  apply Forall_cons in Hps as [Hp Hps]. rewrite (IH s t F Hps). f_equal.
  destruct Hc as [->|[Hc ->]]; [done|]. by rewrite !Hp.
Qed.

Lemma has_run_replaced ps s t :
  Forall2 (fun c c' => c' = c ∨ (55296 ≤ c ∧ c' = 65533)) s t →
  Forall (fun p : N → bool => ∀ c, 55296 ≤ c → p c = false) ps →
  has_run ps t = has_run ps s.
Proof.
  intros F Hps. induction F as [|c c' s t Hc F IH]; [done|].
  simpl. rewrite IH. f_equal.
  apply (starts_with_replaced ps (c :: s) (c' :: t)); [by constructor|done].
Qed.

Lemma occurs_by_has_run eqb w s : occurs_by eqb w s = has_run (map eqb w) s.
Proof.
  assert (P : ∀ w s, prefix_by eqb w s = starts_with (map eqb w) s).
  { clear. induction w as [|a w IH]; intros [|c s]; simpl; try done. by rewrite IH. }
  induction s as [|c s IH]; simpl; [by rewrite P|]. by rewrite P, IH.
Qed.

Lemma ci_eq_ascii a c : a < 128 → 55296 ≤ c → ci_eq a c = false.
Proof.
  intros Ha Hc. unfold ci_eq, canonicalize, is_lower, in_range.
  apply N.eqb_neq.
  destruct (N.leb_spec 97 a), (N.leb_spec a 122), (N.leb_spec 97 c), (N.leb_spec c 122);
    simpl; lia.
Qed.

Lemma keyword_survives_storage w s :
  w ∈ keywords → occurs_ci w (to_well_formed s) = occurs_ci w s.
Proof.
  intros Hw. unfold occurs_ci. rewrite !occurs_by_has_run.
  apply has_run_replaced; [apply to_well_formed_Forall2|].
  apply Forall_fmap, Forall_forall. intros a Ha c Hc. apply ci_eq_ascii; [|done].
  assert (F : Forall (Forall (fun a => a < 128)) keywords)
    by (repeat (constructor; [by repeat constructor|]); constructor).
  rewrite Forall_forall in F. specialize (F w Hw). rewrite Forall_forall in F. by apply F.
Qed.

Lemma handle_survives_storage s :
  has_run handle_start (to_well_formed s) = has_run handle_start s.
Proof.
  apply has_run_replaced; [apply to_well_formed_Forall2|].
  repeat constructor; intros c Hc.
  - apply N.eqb_neq. lia.
  - unfold handle_part, is_alnum, is_alpha, is_upper, is_lower, is_digit, in_range.
    repeat match goal with |- context [?a <=? ?b] => destruct (N.leb_spec a b) end;
      repeat match goal with |- context [?a =? ?b] => destruct (N.eqb_spec a b) end;
      simpl; try done; lia.
Qed.

Lemma digits_survive_storage s :
  has_run three_digits (to_well_formed s) = has_run three_digits s.
Proof.
  apply has_run_replaced; [apply to_well_formed_Forall2|].
  assert (D : ∀ c, 55296 ≤ c → is_digit c = false).
  { intros c Hc. unfold is_digit, in_range.
    destruct (N.leb_spec 48 c), (N.leb_spec c 57); simpl; try done; lia. }
  by repeat constructor.
Qed.

(** *** Extras on sending *)

(** X10: a send keeps the chat tables consistent; so the stored texts stay
    non-empty and free of keywords, handles and digit runs, and the cache of
    every conversation stays its message stored last. *)
Theorem sendMessage_consistent st user conversationId text now rnd time :
  consistent st →
  consistent (sendMessage st user conversationId text now rnd time).2.
Proof.
  intros C.
  destruct (sendMessage_state st user conversationId text now rnd time)
    as [[E _]|(raw & cid & crow & id & sender & name & stored & E)]; [by rewrite E|].
  destruct E as (_ & Hraw & _ & Hc & Hp & _ & Hs & _ & Ht & Hfresh & E). rewrite E. clear E.
  apply pg_text_Some in Hs as [_ ->]. apply pg_text_Some in Ht as [_ ->].
  destruct C as [Ckey Cpair Cids Cowner Ctext Ccache].
  split; cbn [snd conversations messages].
  - intros k row [[<- <-]|[Hk Hrow]]%lookup_insert_Some; simpl; by apply Ckey.
  - intros k row [[<- <-]|[Hk Hrow]]%lookup_insert_Some; simpl; by apply Cpair.
  - rewrite fmap_app. apply NoDup_app. split; [done|]. split; [|by apply NoDup_singleton].
    intros i (m & -> & Hm)%list_elem_of_fmap Heq%list_elem_of_singleton. by apply (Hfresh m).
  - intros m [Hm| ->%list_elem_of_singleton]%elem_of_app.
    + destruct (Cowner m Hm) as (row & p & Hrow & Hin & Hsender).
      destruct (decide (m_conversation_id m = cid)) as [Heq|Hne].
      * rewrite Heq, lookup_insert_eq. eexists _, p. split; [done|]. simpl.
        split; [congruence|done].
      * rewrite lookup_insert_ne by done. eauto.
    + simpl. rewrite lookup_insert_eq. eexists _, (ru_uid user). by repeat split.
  - intros m [Hm| ->%list_elem_of_singleton]%elem_of_app; [by apply Ctext|]. simpl.
    split; [by rewrite to_well_formed_nil_iff, filter_nil_iff|].
    split; [intros w Hw; rewrite keyword_survives_storage by done; by apply filter_clean|].
    split; [rewrite handle_survives_storage; apply filter_no_handles|].
    rewrite digits_survive_storage. apply filter_no_digit_runs.
  - intros k row Hrow. rewrite filter_app.
    apply lookup_insert_Some in Hrow as [[<- <-]|[Hk Hrow]]; simpl.
    + rewrite filter_cons_True, filter_nil by done. by rewrite last_snoc.
    + rewrite filter_cons_False, filter_nil, app_nil_r by (simpl; congruence).
      by apply Ccache.
Qed.

Lemma sendMessage_consistent_witness :
  consistent db1
  ∧ consistent (sendMessage db1 (req_user_of_row acme) (js "u1_u2") (Some (js "hello")) 1
                  (js "k3x9q0a1z") 20).2.
Proof.
  split; [exact consistent_db1|].
  exact (sendMessage_consistent db1 (req_user_of_row acme) (js "u1_u2") (Some (js "hello")) 1
           (js "k3x9q0a1z") 20 consistent_db1).
Defined.

Lemma pg_text_or_null_Some o :
  0 ∉ default [] o → pg_text_or_null o = Some (to_well_formed <$> o).
Proof. destruct o as [t|]; simpl; [|done]. intros H. by rewrite (pg_text_not_0 _ H). Qed.

Lemma pg_text_or_null_None o : 0 ∈ default [] o → pg_text_or_null o = None.
Proof.
  destruct o as [t|]; simpl; [|by intros ?%not_elem_of_nil].
  intros H%pg_text_None. by rewrite H.
Qed.

(** X11: a participant sends a text that is not blank to a stored
    conversation.  When no text parameter of the insert holds the code unit
    0 and the identifier drawn for the message is free, the answer is 201
    with the text as the filter gave it; when one of them holds the code
    unit 0, or a stored message already has the identifier, the answer is
    500 and the database is left as it is. *)
Theorem sendMessage_succeeds st user conversationId raw now rnd time crow :
  trim raw ≠ [] →
  0 ∉ conversationId →
  conversations st !! to_well_formed conversationId = Some crow →
  ru_uid user ∈ c_participants crow →
  let parameters :=
    [message_id now rnd; ru_uid user;
     default [] (js_or (ru_fullName user) (ru_email user));
     filterSensitiveContent (trim raw)] in
  let taken := to_well_formed (message_id now rnd) ∈ m_id <$> messages st in
  let out := sendMessage st user conversationId (Some raw) now rnd time in
  (Forall (fun s => 0 ∉ s) parameters → ¬ taken →
   ∃ m, out.1 = Json 201 (m, isFiltered m)
        ∧ msg_id m = message_id now rnd ∧ senderId m = ru_uid user
        ∧ msg_text m = filterSensitiveContent (trim raw) ∧ msg_timestamp m = time)
  ∧ (Exists (fun s => 0 ∈ s) parameters ∨ taken →
     out = (Fail 500 "Server error while sending message", st)).
Proof.
  intros Hraw H0 Hc Hp parameters taken out. subst out parameters taken.
  unfold sendMessage. destruct raw as [|c t]; [done|].
  set (raw := c :: t) in *. clearbody raw. clear c t.
  set (trimmed := trim raw) in *. set (filtered := filterSensitiveContent trimmed).
  clearbody filtered. clearbody trimmed.
  destruct (Nat.eqb _ _) eqn:El; [by destruct trimmed|].
  unfold select_conversation. rewrite (pg_text_not_0 _ H0). simpl. rewrite Hc.
  apply includes_elem in Hp. rewrite Hp. simpl.
  unfold insert_message. simpl. rewrite (pg_text_not_0 _ H0). simpl.
  split.
  - intros Hall Hfree. rewrite !Forall_cons in Hall.
    destruct Hall as (Hid & Hu & Hn' & Hf' & _).
    rewrite (pg_text_not_0 _ Hid). simpl. rewrite (pg_text_not_0 _ Hu). simpl.
    rewrite (pg_text_or_null_Some _ Hn'). simpl. rewrite (pg_text_not_0 _ Hf'). simpl.
    destruct (existsb _ _) eqn:Hx.
    { destruct Hfree. apply existsb_exists in Hx as (m & Hm & Hid').
      apply bool_decide_eq_true in Hid'. apply list_elem_of_fmap. exists m.
      split; [done|]. by apply list_elem_of_In. }
    unfold update_last_message. simpl.
    rewrite (pg_text_not_0 _ Hf'). simpl. rewrite (pg_text_not_0 _ Hu). simpl.
    rewrite (pg_text_not_0 _ H0). simpl.
    by eexists (Message _ _ _ _ _ _).
  - intros Hbad.
    destruct (pg_text (message_id now rnd)) as [id|] eqn:Eid; simpl; [|done].
    destruct (pg_text (ru_uid user)) as [sender|] eqn:Es; simpl; [|done].
    destruct (pg_text_or_null _) as [name|] eqn:En; simpl; [|done].
    destruct (pg_text filtered) as [stored|] eqn:Et; simpl; [|done].
    pose proof Eid as Eid'. apply pg_text_Some in Eid' as [_ ->].
    destruct (existsb _ _) eqn:Hx; [done|]. exfalso.
    destruct Hbad as [Hbad|(m & Hid & Hm)%list_elem_of_fmap].
    + apply Exists_cons in Hbad as [Hb|Hbad]; [apply pg_text_None in Hb; congruence|].
      apply Exists_cons in Hbad as [Hb|Hbad]; [apply pg_text_None in Hb; congruence|].
      apply Exists_cons in Hbad as [Hb|Hbad];
        [apply pg_text_or_null_None in Hb; congruence|].
      apply Exists_cons in Hbad as [Hb|Hbad]; [apply pg_text_None in Hb; congruence|].
      by apply Exists_nil in Hbad.
    + apply not_true_iff_false in Hx. destruct Hx.
      apply existsb_exists. exists m. split; [by apply list_elem_of_In|].
      by apply bool_decide_eq_true.
Qed.

Lemma sendMessage_succeeds_witness :
  (trim (js " hello ") ≠ [] ∧ (0 ∉ js "u1_u2")
   ∧ conversations db2 !! to_well_formed (js "u1_u2") = Some conversation_row2
   ∧ ru_uid (req_user_of_row bo) ∈ c_participants conversation_row2)
  ∧ (to_well_formed (message_id 1 (js "k3x9q0a1z")) ∈ m_id <$> messages db2)
  ∧ sendMessage db2 (req_user_of_row bo) (js "u1_u2") (Some (js " hello ")) 1
      (js "k3x9q0a1z") 40 = (Fail 500 "Server error while sending message", db2).
Proof.
  assert (H1 : trim (js " hello ") ≠ []) by discriminate.
  assert (H0 : 0 ∉ js "u1_u2") by (apply (bool_decide_unpack _); vm_compute; exact I).
  assert (H2 : conversations db2 !! to_well_formed (js "u1_u2") = Some conversation_row2)
    by (vm_compute; reflexivity).
  assert (H3 : ru_uid (req_user_of_row bo) ∈ c_participants conversation_row2)
    by (right; left).
  assert (H4 : to_well_formed (message_id 1 (js "k3x9q0a1z")) ∈ m_id <$> messages db2)
    by (apply (bool_decide_unpack _); vm_compute; exact I).
  split; [done|]. split; [exact H4|].
  exact (proj2 (sendMessage_succeeds db2 (req_user_of_row bo) (js "u1_u2") (js " hello ") 1
                  (js "k3x9q0a1z") 40 conversation_row2 H1 H0 H2 H3) (or_intror H4)).
Defined.

(** X12: a send never touches the users, the stored messages or another
    conversation, and of every conversation it keeps the identifier, the
    participants, their details and the time of creation; it appends at
    most one message. *)
Theorem sendMessage_frame st user conversationId text now rnd time :
  let out := sendMessage st user conversationId text now rnd time in
  users out.2 = users st
  ∧ delete (to_well_formed conversationId) (conversations out.2)
    = delete (to_well_formed conversationId) (conversations st)
  ∧ immutable_part <$> conversations out.2 = immutable_part <$> conversations st
  ∧ messages st `prefix_of` messages out.2
  ∧ (length (messages out.2) ≤ S (length (messages st)))%nat.
Proof.
  intros out.
  destruct (sendMessage_state st user conversationId text now rnd time)
    as [[E _]|(raw & cid & crow & id & sender & name & stored & E)]; fold out in E.
  - rewrite E. repeat split; [done|lia].
  - destruct E as (_ & _ & Hcid & Hc & _ & _ & _ & _ & _ & _ & E). rewrite E. clear E.
    apply pg_text_Some in Hcid as [_ ->].
    cbn [snd users conversations messages]. repeat split.
    + by rewrite delete_insert_eq.
    + rewrite fmap_insert. apply insert_id. by rewrite lookup_fmap, Hc.
    + by apply prefix_app_r.
    + rewrite length_app. simpl. lia.
Qed.

(** *** Extras on listing messages *)

Lemma insert_desc_perm m l : insert_desc m l ≡ₚ m :: l.
Proof.
  induction l as [|x l IH]; simpl; [done|].
  destruct (_ <=? _)%Z; [done|]. rewrite IH. apply perm_swap.
Qed.

(** The sort of the handler as modelled is one order the query may give. *)
Lemma insertion_orders_newest_first : orders_newest_first (foldr insert_desc []).
Proof.
  intros rows. split; [|apply order_by_desc_sorted].
  induction rows as [|x rows IH]; simpl; [done|]. by rewrite insert_desc_perm, IH.
Qed.

(** What a successful answer is made of. *)
Lemma listMessages_by_success order_by st user conversationId page limit status msgs conv :
  listMessages_by order_by st user conversationId page limit = Json status (msgs, conv) →
  ∃ n crow,
    parseInt (default (js "50") limit) = Finite n
    ∧ (0 ≤ n ≤ 9223372036854775807)%Z
    ∧ (0 ∉ conversationId)
    ∧ conversations st !! to_well_formed conversationId = Some crow
    ∧ ru_uid user ∈ c_participants crow
    ∧ status = 200%Z
    ∧ conv = conversation_of_row crow
    ∧ msgs = reverse (message_of_row <$>
               take (Z.to_nat n)
                 (order_by
                    (filter (fun m => m_conversation_id m = to_well_formed conversationId)
                       (messages st)))).
Proof.
  unfold listMessages_by, select_conversation, select_messages_by.
  destruct (pg_text conversationId) as [cid|] eqn:Ecid; [|done]. simpl.
  apply pg_text_Some in Ecid as [H0 ->].
  destruct (conversations st !! _) as [crow|]; [|done].
  destruct (includes _ _) eqn:Hp; [|done]. simpl.
  destruct (parseInt _) as [| |n]; try done.
  destruct (_ || _) eqn:Hn; [done|]. intros [= <- <- <-].
  apply orb_false_elim in Hn as [Hn1 Hn2]. apply Z.ltb_ge in Hn1, Hn2.
  exists n, crow. repeat split; try done.
  - intros Hz. rewrite Forall_forall in H0. by apply (H0 0).
  - by apply includes_elem.
Qed.

(** X13: whatever order the database gives to rows of equal timestamp, a
    successful listing answers with the newest messages of the
    conversation, as many as the limit allows (50 when none is given), in
    ascending order of timestamp; no message left out is newer than one
    shown, and no message of another conversation is shown. *)
Theorem listMessages_window order_by st user conversationId page limit status msgs conv :
  orders_newest_first order_by →
  listMessages_by order_by st user conversationId page limit = Json status (msgs, conv) →
  let stored :=
    filter (fun m => m_conversation_id m = to_well_formed conversationId) (messages st) in
  ∃ n shown older,
    parseInt (default (js "50") limit) = Finite n
    ∧ msgs = message_of_row <$> shown
    ∧ stored ≡ₚ shown ++ older
    ∧ length shown = (Z.to_nat n `min` length stored)%nat
    ∧ StronglySorted (fun a b => (m_timestamp a ≤ m_timestamp b)%Z) shown
    ∧ Forall (fun a => Forall (fun b => (m_timestamp a ≤ m_timestamp b)%Z) shown) older.
Proof.
  intros Horder (n & crow & Hn & _ & _ & _ & _ & _ & _ & ->)%listMessages_by_success stored.
  destruct (Horder stored) as [Hperm Hs]. fold stored.
  set (sorted := order_by stored) in *.
  exists n, (reverse (take (Z.to_nat n) sorted)), (drop (Z.to_nat n) sorted).
  split; [done|]. split; [by rewrite fmap_reverse|].
  split; [by rewrite reverse_Permutation, take_drop|].
  split; [by rewrite length_reverse, length_take, Hperm|].
  split.
  - apply (StronglySorted_reverse newer_first), StronglySorted_take, Hs.
  - rewrite <- (take_drop (Z.to_nat n) sorted) in Hs.
    apply StronglySorted_app in Hs as (Hcross & _ & _).
    apply Forall_forall. intros a Ha. apply Forall_forall. intros b Hb.
    apply Hcross; [|done]. by rewrite elem_of_reverse in Hb.
Qed.

Lemma listMessages_window_witness :
  orders_newest_first (foldr insert_desc [])
  ∧ listMessages_by (foldr insert_desc []) db3 (req_user_of_row acme) (js "u1_u2") None
      (Some (js "1"))
    = Json 200 ([message_of_row message_row2], conversation_of_row conversation_row3)
  ∧ ∃ n shown older,
      parseInt (default (js "50") (Some (js "1"))) = Finite n
      ∧ [message_of_row message_row2] = message_of_row <$> shown
      ∧ filter (fun m => m_conversation_id m = to_well_formed (js "u1_u2")) (messages db3)
        ≡ₚ shown ++ older
      ∧ Forall (fun a => Forall (fun b => (m_timestamp a ≤ m_timestamp b)%Z) shown) older.
Proof.
  assert (H : listMessages_by (foldr insert_desc []) db3 (req_user_of_row acme) (js "u1_u2")
                None (Some (js "1"))
              = Json 200 ([message_of_row message_row2],
                          conversation_of_row conversation_row3))
    by (vm_compute; reflexivity).
  split; [exact insertion_orders_newest_first|]. split; [exact H|].
  destruct (listMessages_window _ _ _ _ _ _ _ _ _ insertion_orders_newest_first H)
    as (n & shown & older & H1 & H2 & H3 & _ & _ & H4).
  exists n, shown, older. repeat split; assumption.
Defined.

(** X14: a listing is refused with 500 when the conversation identifier
    holds the code unit 0; otherwise with 404 when the conversation does not
    exist and with 403 when the requester is not among its participants;
    and, for a participant, with 500 when the limit is not a number, is
    negative or is beyond 64 bits. *)
Theorem listMessages_errors order_by st user conversationId page limit :
  let out := listMessages_by order_by st user conversationId page limit in
  (0 ∈ conversationId → out = Fail 500 "Server error while fetching messages")
  ∧ (0 ∉ conversationId →
     match conversations st !! to_well_formed conversationId with
     | None => out = NotFound_conversation
     | Some crow =>
         (ru_uid user ∉ c_participants crow → out = Forbidden)
         ∧ (ru_uid user ∈ c_participants crow →
            match parseInt (default (js "50") limit) with
            | Finite n => (n < 0 ∨ 9223372036854775807 < n)%Z
            | _ => True
            end →
            out = Fail 500 "Server error while fetching messages")
     end).
Proof.
  unfold listMessages_by, select_conversation, select_messages_by. split.
  - intros H0%pg_text_None. by rewrite H0.
  - intros H0. rewrite (pg_text_not_0 _ H0). simpl.
    destruct (conversations st !! _) as [crow|]; [|done]. split.
    + intros Hp. rewrite <- includes_elem in Hp. by apply not_true_is_false in Hp as ->.
    + intros Hp Hn. apply includes_elem in Hp. rewrite Hp. simpl.
      destruct (parseInt _) as [| |n]; try done.
      replace ((n <? 0)%Z || (9223372036854775807 <? n)%Z) with true; [done|].
      symmetry. apply orb_true_intro. destruct Hn; [left|right]; by apply Z.ltb_lt.
Qed.

Lemma listMessages_errors_witness :
  ((0 ∈ js "u1_u2" ++ [0])
   ∧ listMessages db3 (req_user_of_row acme) (js "u1_u2" ++ [0]) None None
     = Fail 500 "Server error while fetching messages")
  ∧ ((0 ∉ js "u1_u2")
     ∧ conversations db3 !! to_well_formed (js "u1_u2") = Some conversation_row3
     ∧ ru_uid (req_user_of_row bo) ∈ c_participants conversation_row3
     ∧ parseInt (default (js "50") (Some (js "9223372036854775807")))
       = Finite 9223372036854775808
     ∧ listMessages db3 (req_user_of_row bo) (js "u1_u2") None
         (Some (js "9223372036854775807"))
       = Fail 500 "Server error while fetching messages").
Proof.
  assert (Z1 : 0 ∈ js "u1_u2" ++ [0]) by (apply elem_of_app; right; left).
  assert (Z2 : 0 ∉ js "u1_u2") by (apply (bool_decide_unpack _); vm_compute; exact I).
  assert (S : conversations db3 !! to_well_formed (js "u1_u2") = Some conversation_row3)
    by (vm_compute; reflexivity).
  assert (Q : ru_uid (req_user_of_row bo) ∈ c_participants conversation_row3)
    by (right; left).
  assert (L : parseInt (default (js "50") (Some (js "9223372036854775807")))
              = Finite 9223372036854775808) by (vm_compute; reflexivity).
  split; [split; [exact Z1|]|split; [exact Z2|split; [exact S|split; [exact Q|split; [exact L|]]]]].
  - exact (proj1 (listMessages_errors (foldr insert_desc []) db3 (req_user_of_row acme)
                    (js "u1_u2" ++ [0]) None None) Z1).
  - pose proof (proj2 (listMessages_errors (foldr insert_desc []) db3 (req_user_of_row bo)
                         (js "u1_u2") None (Some (js "9223372036854775807"))) Z2) as H.
    rewrite S in H. apply (proj2 H Q). rewrite L. right. reflexivity.
Defined.

(** In a list that is newest first, a row newer than all the others comes
    first. *)
Lemma newest_comes_first row old sorted :
  sorted ≡ₚ old ++ [row] → StronglySorted newer_first sorted →
  Forall (fun r => (m_timestamp r < m_timestamp row)%Z) old →
  ∃ rest, sorted = row :: rest.
Proof.
  intros Hperm Hs Hold. destruct sorted as [|x rest].
  { apply Permutation_nil_l in Hperm. by destruct old. }
  exists rest. f_equal. rewrite Forall_forall in Hold.
  assert (Hx : x ∈ old ++ [row]) by (rewrite <- Hperm; left).
  apply elem_of_app in Hx as [Hx| ->%list_elem_of_singleton]; [|done]. exfalso.
  specialize (Hold x Hx).
  assert (Hrow : row ∈ x :: rest) by (rewrite Hperm, elem_of_app; right; left).
  apply StronglySorted_inv in Hs as [_ Hall]. rewrite Forall_forall in Hall.
  apply elem_of_cons in Hrow as [->|Hrow]; [lia|].
  specialize (Hall row Hrow). unfold newer_first in Hall. lia.
Qed.

(** X15: a message sent with a timestamp later than those of the messages
    its conversation holds is the last one of the next listing, for every
    limit from 1 on and whatever order the database gives to rows of equal
    timestamp; the listing shows it as the table holds it, and the
    conversation listed with it shows its text as last message. *)
Theorem listMessages_after_send order_by st user conversationId text now rnd time status m
    flag st' reader page limit n :
  sendMessage st user conversationId text now rnd time = (Json status (m, flag), st') →
  Forall (fun r => m_conversation_id r = to_well_formed conversationId →
                   (m_timestamp r < time)%Z) (messages st) →
  (∀ crow, conversations st !! to_well_formed conversationId = Some crow →
           ru_uid reader ∈ c_participants crow) →
  parseInt (default (js "50") limit) = Finite n →
  (1 ≤ n ≤ 9223372036854775807)%Z →
  orders_newest_first order_by →
  ∃ earlier conv,
    listMessages_by order_by st' reader conversationId page limit
    = Json 200
        (earlier ++
           [Message (to_well_formed (msg_id m)) (to_well_formed (senderId m))
              (to_well_formed <$> senderName m) (to_well_formed (msg_text m))
              time (isFiltered m)],
         conv)
    ∧ lastMessage conv = Some (to_well_formed (msg_text m))
    ∧ lastMessageTime conv = Some time.
Proof.
  intros Hsend Hold Hreader Hn Hrange Horder.
  destruct (sendMessage_state st user conversationId text now rnd time)
    as [[_ E]|(raw & cid & crow & id & sender & name & stored & E)];
    [by rewrite Hsend in E; destruct (E status (m, flag))|].
  destruct E as (_ & _ & Hcid & Hc & _ & Hid & Hs & Hname & Ht & _ & E).
  rewrite Hsend in E. injection E as -> -> -> ->.
  pose proof Hcid as Hcid'. apply pg_text_Some in Hcid' as [_ ->].
  apply pg_text_Some in Hid as [_ ->]. apply pg_text_Some in Hs as [_ ->].
  apply pg_text_Some in Ht as [_ ->].
  assert (name = to_well_formed <$> js_or (ru_fullName user) (ru_email user)) as ->.
  { destruct (js_or _ _) as [nm|]; simpl in Hname; [|by injection Hname].
    destruct (pg_text nm) as [nm'|] eqn:En; [|done].
    apply pg_text_Some in En as [_ ->]. by injection Hname. }
  unfold listMessages_by, select_conversation, select_messages_by.
  rewrite Hcid. cbn [mbind option_bind conversations messages].
  rewrite lookup_insert_eq. cbn [c_participants].
  specialize (Hreader crow Hc). apply includes_elem in Hreader.
  rewrite Hreader. cbn [negb]. rewrite Hn.
  replace ((n <? 0)%Z || (9223372036854775807 <? n)%Z) with false
    by (symmetry; apply orb_false_intro; [apply Z.ltb_ge|apply Z.ltb_ge]; lia).
  rewrite filter_app, filter_cons_True, filter_nil by done.
  match goal with |- context [order_by (?old ++ [?row])] =>
    destruct (Horder (old ++ [row])) as [Hperm Hsorted];
    destruct (newest_comes_first row old (order_by (old ++ [row])) Hperm Hsorted)
      as [rest ->] end.
  { apply Forall_forall. intros r [Hr1 Hr2]%list_elem_of_filter.
    rewrite Forall_forall in Hold. by apply Hold. }
  destruct (Z.to_nat n) as [|k] eqn:Hk; [lia|].
  rewrite firstn_cons, fmap_cons, reverse_cons.
  eexists _, _. split; [reflexivity|]. done.
Qed.

Lemma listMessages_after_send_witness :
  sendMessage db2 (req_user_of_row bo) (js "u1_u2") (Some (js " mail bo@mail.io ")) 2
    (js "p7m2c4d8e") 30 = (Json 201 (message_of_row message_row2, true), db3)
  ∧ ∃ earlier conv,
      listMessages db3 (req_user_of_row acme) (js "u1_u2") None None
        = Json 200 (earlier ++ [message_of_row message_row2], conv)
      ∧ lastMessage conv = Some (js "mail *****").
Proof.
  assert (H : sendMessage db2 (req_user_of_row bo) (js "u1_u2")
                (Some (js " mail bo@mail.io ")) 2 (js "p7m2c4d8e") 30
              = (Json 201 (message_of_row message_row2, true), db3))
    by (vm_compute; reflexivity).
  split; [exact H|].
  destruct (listMessages_after_send (foldr insert_desc []) db2 (req_user_of_row bo)
              (js "u1_u2") (Some (js " mail bo@mail.io ")) 2 (js "p7m2c4d8e") 30 201
              (message_of_row message_row2) true db3 (req_user_of_row acme) None None 50 H)
    as (earlier & conv & H1 & H2 & _).
  - repeat constructor.
  - intros crow Hc. vm_compute in Hc. injection Hc as <-. left.
  - reflexivity.
  - lia.
  - exact insertion_orders_newest_first.
  - exists earlier, conv. split; [exact H1|exact H2].
Defined.

(** *** Extras on reading conversations *)

Lemma insert_updated_desc_perm c l : insert_updated_desc c l ≡ₚ c :: l.
Proof.
  induction l as [|x l IH]; simpl; [done|].
  destruct (_ <=? _)%Z; [done|]. rewrite IH. apply perm_swap.
Qed.

Lemma insert_updated_desc_Forall c x l :
  later_first x c → Forall (later_first x) l → Forall (later_first x) (insert_updated_desc c l).
Proof. intros Hc Hl. rewrite insert_updated_desc_perm. by constructor. Qed.

Lemma insert_updated_desc_sorted c l :
  StronglySorted later_first l → StronglySorted later_first (insert_updated_desc c l).
Proof.
  induction 1 as [|x l Hs IH Hx]; simpl; [repeat constructor|].
  destruct (_ <=? _)%Z eqn:E.
  - apply Z.leb_le in E. constructor; [by constructor|].
    constructor; [done|]. eapply Forall_impl; [exact Hx|].
    unfold later_first. intros; lia.
  - apply Z.leb_gt in E. constructor; [done|].
    apply insert_updated_desc_Forall; [unfold later_first; lia|done].
Qed.

Lemma insertion_orders_latest_first : orders_latest_first (foldr insert_updated_desc []).
Proof.
  intros rows. split.
  - induction rows as [|x rows IH]; simpl; [done|]. by rewrite insert_updated_desc_perm, IH.
  - induction rows as [|x rows IH]; simpl; [constructor|]. by apply insert_updated_desc_sorted.
Qed.

(** X16: the list of conversations is refused with 500 when the
    requester's identifier holds the code unit 0; otherwise it is answered
    with exactly the stored conversations that have the requester (as the
    driver sends the identifier) among their participants, none of them
    before one updated later, whatever order the database gives to rows of
    equal update time. *)
Theorem listConversations_exact order_by st user :
  orders_latest_first order_by →
  let out := listConversations_by order_by st user in
  (0 ∈ ru_uid user → out = Fail 500 "Server error while fetching conversations")
  ∧ (0 ∉ ru_uid user →
     ∃ rows,
       out = Json 200 (conversation_of_row <$> rows)
       ∧ (∀ row, row ∈ rows ↔
                 ∃ cid, conversations st !! cid = Some row
                        ∧ to_well_formed (ru_uid user) ∈ c_participants row)
       ∧ rows ≡ₚ filter (fun row => to_well_formed (ru_uid user) ∈ c_participants row)
                   (map_to_list (conversations st)).*2
       ∧ StronglySorted later_first rows).
Proof.
  intros Horder out. subst out. unfold listConversations_by, select_conversations_by. split.
  - intros H0%pg_text_None. by rewrite H0.
  - intros H0. rewrite (pg_text_not_0 _ H0). simpl.
    match goal with |- context [order_by ?l] =>
      destruct (Horder l) as [Hperm Hs]; exists (order_by l) end.
    split; [done|]. split; [|done].
    intros row. rewrite Hperm, list_elem_of_filter, list_elem_of_fmap. split.
    + intros [Hp ([cid row'] & -> & Hin)]. exists cid.
      by apply elem_of_map_to_list in Hin.
    + intros (cid & Hc & Hp). split; [done|]. exists (cid, row).
      split; [done|]. by apply elem_of_map_to_list.
Qed.

Lemma listConversations_exact_witness :
  orders_latest_first (foldr insert_updated_desc [])
  ∧ (0 ∉ ru_uid (req_user_of_row bo))
  ∧ listConversations db3 (req_user_of_row bo) = Json 200 [conversation_of_row conversation_row3]
  ∧ ∃ rows,
      listConversations db3 (req_user_of_row bo) = Json 200 (conversation_of_row <$> rows)
      ∧ StronglySorted later_first rows.
Proof.
  assert (Z : 0 ∉ ru_uid (req_user_of_row bo))
    by (apply (bool_decide_unpack _); vm_compute; exact I).
  split; [exact insertion_orders_latest_first|]. split; [exact Z|].
  split; [vm_compute; reflexivity|].
  destruct (proj2 (listConversations_exact (foldr insert_updated_desc []) db3
                     (req_user_of_row bo) insertion_orders_latest_first) Z)
    as (rows & H1 & _ & _ & H2).
  exists rows. split; [exact H1|exact H2].
Defined.

(** X17: the three readers agree.  The conversation a listing of messages
    is answered with is the one the handler of the single conversation
    answers with; and a conversation that handler answers with is among the
    conversations listed for the requester, when the requester's identifier
    is one the database can hold (no code unit 0, no unpaired surrogate). *)
Theorem readers_agree st user conversationId :
  (∀ order_by page limit status msgs conv,
     listMessages_by order_by st user conversationId page limit = Json status (msgs, conv) →
     getConversation st user conversationId = Json 200 conv)
  ∧ (∀ order_by status conv,
       getConversation st user conversationId = Json status conv →
       (0 ∉ ru_uid user) → to_well_formed (ru_uid user) = ru_uid user →
       ∃ convs, listConversations_by order_by st user = Json 200 convs
                ∧ (orders_latest_first order_by → conv ∈ convs)).
Proof.
  split.
  - intros order_by page limit status msgs conv
      (n & crow & _ & _ & H0 & Hc & Hp & _ & -> & _)%listMessages_by_success.
    unfold getConversation, select_conversation. rewrite (pg_text_not_0 _ H0). simpl.
    rewrite Hc. apply includes_elem in Hp. by rewrite Hp.
  - intros order_by status conv Hget H0 Hwf.
    unfold listConversations_by, select_conversations_by.
    rewrite (pg_text_not_0 _ H0), Hwf. simpl. eexists. split; [done|]. intros Horder.
    unfold getConversation, select_conversation in Hget.
    destruct (pg_text conversationId) as [cid|]; [|done]. simpl in Hget.
    destruct (conversations st !! cid) as [row|] eqn:Hc; [|done].
    destruct (includes _ _) eqn:Hp; [|done]. simpl in Hget. injection Hget as <- <-.
    apply includes_elem in Hp.
    apply list_elem_of_fmap. exists row. split; [done|].
    match goal with |- _ ∈ order_by ?l => destruct (Horder l) as [Hperm _] end.
    rewrite Hperm.
    apply list_elem_of_filter. split; [done|].
    apply list_elem_of_fmap. exists (cid, row). split; [done|].
    by apply elem_of_map_to_list.
Qed.

Lemma readers_agree_witness :
  listMessages db3 (req_user_of_row bo) (js "u1_u2") None None
    = Json 200 ([message_of_row message_row1; message_of_row message_row2],
                conversation_of_row conversation_row3)
  ∧ getConversation db3 (req_user_of_row bo) (js "u1_u2")
    = Json 200 (conversation_of_row conversation_row3)
  ∧ ∃ convs, listConversations db3 (req_user_of_row bo) = Json 200 convs
             ∧ conversation_of_row conversation_row3 ∈ convs.
Proof.
  assert (H : listMessages db3 (req_user_of_row bo) (js "u1_u2") None None
              = Json 200 ([message_of_row message_row1; message_of_row message_row2],
                          conversation_of_row conversation_row3))
    by (vm_compute; reflexivity).
  pose proof (proj1 (readers_agree db3 (req_user_of_row bo) (js "u1_u2")) _ _ _ _ _ _ H)
    as G.
  split; [exact H|]. split; [exact G|].
  destruct (proj2 (readers_agree db3 (req_user_of_row bo) (js "u1_u2"))
              (foldr insert_updated_desc []) _ _ G)
    as (convs & H1 & H2).
  - apply (bool_decide_unpack _); vm_compute; exact I.
  - vm_compute; reflexivity.
  - exists convs. split; [exact H1|exact (H2 insertion_orders_latest_first)].
Defined.

(** X18: the single conversation is refused with 500 when the identifier
    holds the code unit 0, with 404 when no conversation is stored under
    the identifier as the driver sends it, and with 403 for a requester who
    is not among the participants; a participant is answered with the
    stored row. *)
Theorem getConversation_cases st user conversationId :
  let out := getConversation st user conversationId in
  (0 ∈ conversationId → out = Fail 500 "Server error while fetching conversation")
  ∧ (0 ∉ conversationId →
     match conversations st !! to_well_formed conversationId with
     | None => out = NotFound_conversation
     | Some row =>
         (ru_uid user ∉ c_participants row → out = Forbidden)
         ∧ (ru_uid user ∈ c_participants row → out = Json 200 (conversation_of_row row))
     end).
Proof.
  unfold getConversation, select_conversation. split.
  - intros H0%pg_text_None. by rewrite H0.
  - intros H0. rewrite (pg_text_not_0 _ H0). simpl.
    destruct (conversations st !! _) as [row|]; [|done]. split.
    + intros Hp. rewrite <- includes_elem in Hp. by apply not_true_is_false in Hp as ->.
    + intros Hp. apply includes_elem in Hp. by rewrite Hp.
Qed.

Lemma getConversation_cases_witness :
  ((0 ∈ [0; 97]) ∧ getConversation db3 (req_user_of_row bo) [0; 97]
                   = Fail 500 "Server error while fetching conversation")
  ∧ ((0 ∉ js "u1_u2")
     ∧ (ru_uid (req_user_of_row cy) ∉ c_participants conversation_row3)
     ∧ getConversation db3 (req_user_of_row cy) (js "u1_u2") = Forbidden).
Proof.
  assert (Z1 : 0 ∈ [0; 97]) by left.
  assert (Z2 : 0 ∉ js "u1_u2") by (apply (bool_decide_unpack _); vm_compute; exact I).
  assert (Q : ru_uid (req_user_of_row cy) ∉ c_participants conversation_row3)
    by (apply (bool_decide_unpack _); vm_compute; exact I).
  split; [split; [exact Z1|]|split; [exact Z2|split; [exact Q|]]].
  - exact (proj1 (getConversation_cases db3 (req_user_of_row bo) [0; 97]) Z1).
  - exact (proj1 (proj2 (getConversation_cases db3 (req_user_of_row cy) (js "u1_u2")) Z2) Q).
Defined.

(** *** Extras on the middleware *)

Lemma select_user_found st u row :
  0 ∉ u → users st !! to_well_formed u = Some row →
  select_user st (Some u) = Some (Some row).
Proof. intros H0 Hu. simpl. by rewrite (pg_text_not_0 _ H0); simpl; rewrite Hu. Qed.

(** X19: a request with a token that verifies, for a subject the database
    can be asked for (no code unit 0).  When the users table holds the
    subject, the route gets that row as [req.user] and nothing is written.
    When it does not, and neither the e-mail nor the name of the token
    holds the code unit 0, a row is created with the role content_creator
    and the route gets that row; conversations and messages stay as they
    are.  [uid] is read before [sub], and an empty e-mail or name is stored
    as [NULL]. *)
Theorem authMiddleware_login verify st authorization secret token decoded u :
  replace_first (js "Bearer ") [] <$> authorization = Some token → token ≠ [] →
  trim secret ≠ [] →
  verify token secret = Some decoded →
  js_or (cl_uid decoded) (cl_sub decoded) = Some u → (0 ∉ u) →
  let out := authMiddleware verify st authorization (Some secret) in
  match users st !! to_well_formed u with
  | Some row => out = (Next (req_user_of_row row), st)
  | None =>
      (0 ∉ default [] (js_or (cl_email decoded) None)) →
      (0 ∉ default [] (js_or (cl_name decoded) None)) →
      let row := UserRow (to_well_formed u)
                   (to_well_formed <$> js_or (cl_email decoded) None) content_creator
                   (to_well_formed <$> js_or (cl_name decoded) None) in
      out = (Next (req_user_of_row row),
             Db (<[to_well_formed u := row]> (users st)) (conversations st) (messages st))
  end.
Proof.
  intros Htoken Hne Hsecret Hverify Huid H0 out. subst out. unfold authMiddleware.
  rewrite Htoken. destruct token as [|c token]; [done|].
  destruct secret as [|d secret]; [done|].
  destruct (Nat.eqb _ 0) eqn:Hlen.
  { apply Nat.eqb_eq in Hlen. by apply nil_length_inv in Hlen. }
  rewrite Hverify. cbv zeta. rewrite Huid.
  destruct (users st !! to_well_formed u) as [row|] eqn:Hu.
  - by rewrite (select_user_found _ _ _ H0 Hu).
  - intros He Hn. unfold select_user at 1. rewrite (pg_text_not_0 _ H0).
    cbn [mbind option_bind]. rewrite Hu. unfold insert_user.
    rewrite (pg_text_or_null_Some (Some u)) by done. cbn [mbind option_bind fmap option_fmap option_map].
    rewrite (pg_text_or_null_Some _ He). cbn [mbind option_bind].
    replace (pg_text content_creator) with (Some content_creator) by (vm_compute; reflexivity).
    cbn [mbind option_bind].
    rewrite (pg_text_or_null_Some _ Hn). cbn [mbind option_bind]. rewrite Hu.
    erewrite select_user_found; [done|done|]. cbn [users]. by rewrite lookup_insert_eq.
Qed.

Lemma authMiddleware_login_witness :
  authMiddleware verify1 db3 (Some (js "Bearer t1")) (Some secret1)
    = (Next (req_user_of_row di),
       Db (<[js "u7" := di]> directory) (conversations db3) (messages db3)).
Proof.
  assert (Hu : users db3 !! to_well_formed (js "u7") = None) by (vm_compute; reflexivity).
  pose proof (authMiddleware_login verify1 db3 (Some (js "Bearer t1")) secret1 (js "t1")
                (Claims None (Some (js "u7")) (Some (js "di@mail.io")) (Some (js "Di")))
                (js "u7")) as H.
  cbv zeta in H. rewrite Hu in H. apply H.
  - vm_compute; reflexivity.
  - discriminate.
  - vm_compute; discriminate.
  - vm_compute; reflexivity.
  - reflexivity.
  - apply (bool_decide_unpack _); vm_compute; exact I.
  - apply (bool_decide_unpack _); vm_compute; exact I.
  - apply (bool_decide_unpack _); vm_compute; exact I.
Defined.

Lemma insert_user_Some uid email role displayName st st' :
  insert_user uid email role displayName st = Some st' →
  ∃ u u' e r n,
    uid = Some u ∧ pg_text u = Some u' ∧ users st !! u' = None
    ∧ st' = Db (<[u' := UserRow u' e r n]> (users st)) (conversations st) (messages st).
Proof.
  unfold insert_user. destruct uid as [u|]; simpl.
  - destruct (pg_text u) as [u'|] eqn:Hpg; [|done]. simpl.
    destruct (pg_text_or_null email) as [e|]; [|done]. simpl.
    destruct (pg_text role) as [r|]; [|done]. simpl.
    destruct (pg_text_or_null displayName) as [n|]; [|done]. simpl.
    destruct (users st !! u') eqn:Hfree; [done|]. intros [= <-].
    by exists u, u', e, r, n.
  - destruct (pg_text_or_null email) as [e|]; [|done]. simpl.
    destruct (pg_text role) as [r|]; [|done]. simpl.
    by destruct (pg_text_or_null displayName).
Qed.

(** X20: what the middleware refuses and what it leaves alone.  Without a
    header, or with one that is empty once the first "Bearer " is taken
    out, the answer is 401; with a token and a secret that is missing or
    blank it is 500; with a token that does not verify it is 401.  A
    refusal writes nothing, no call touches conversations or messages or a
    stored user, and a user handed to the route is a row of the users
    table as the call leaves it, with no [fullName]. *)
Theorem authMiddleware_refusals verify st authorization JWT_SECRET :
  let token := replace_first (js "Bearer ") [] <$> authorization in
  let out := authMiddleware verify st authorization JWT_SECRET in
  (default [] token = [] → out = (Reject 401 "No token provided", st))
  ∧ (default [] token ≠ [] → trim (default [] JWT_SECRET) = [] →
     out = (Reject 500 "Server configuration error", st))
  ∧ (default [] token ≠ [] → trim (default [] JWT_SECRET) ≠ [] →
     verify (default [] token) (default [] JWT_SECRET) = None →
     out = (Reject 401 "Invalid token", st))
  ∧ (∀ status error, out.1 = Reject status error → out.2 = st)
  ∧ conversations out.2 = conversations st
  ∧ messages out.2 = messages st
  ∧ (∀ k row, users st !! k = Some row → users out.2 !! k = Some row)
  ∧ (∀ user, out.1 = Next user →
       ru_fullName user = None
       ∧ ∃ k row, users out.2 !! k = Some row ∧ user = req_user_of_row row).
Proof.
  intros token out. subst token out. unfold authMiddleware.
  destruct (replace_first _ _ <$> authorization) as [[|c token]|];
    [by split_and!| |by split_and!].
  destruct JWT_SECRET as [[|d secret]|]; [by split_and!| |by split_and!].
  cbv [default from_option Datatypes.id]. set (tok := c :: token). set (sec := d :: secret).
  assert (Htok : tok ≠ []) by done. clearbody tok sec.
  destruct (Nat.eqb _ 0) eqn:Hlen.
  { apply Nat.eqb_eq, nil_length_inv in Hlen. by split_and!. }
  apply Nat.eqb_neq in Hlen.
  assert (Hsec : trim sec ≠ []) by (intros E; by rewrite E in Hlen).
  destruct (verify tok sec) as [decoded|]; [|by split_and!].
  cbv zeta.
  destruct (select_user st _) as [[pgUser|]|] eqn:Hsel; [| |by split_and!].
  - cbn [fst snd]. split_and!; try done.
    intros user [= <-]. split; [done|].
    destruct (js_or _ _) as [u|]; [|done]. simpl in Hsel.
    destruct (pg_text u) as [u'|]; [|done]. simpl in Hsel. injection Hsel as Hsel. eauto.
  - destruct (insert_user _ _ _ _ st) as [st'|] eqn:Hins; [|by split_and!].
    apply insert_user_Some in Hins as (u & u' & e & r & n & Hu & Hpg & Hfree & ->).
    rewrite Hu. unfold select_user. rewrite Hpg. cbn [mbind option_bind users].
    rewrite lookup_insert_eq. cbn [fst snd conversations messages users].
    split_and!; try done.
    + intros k row Hk. rewrite lookup_insert_ne; [done|]. intros <-. congruence.
    + intros user [= <-]. split; [done|]. eexists u', _. by rewrite lookup_insert_eq.
Qed.

Lemma authMiddleware_refusals_witness :
  authMiddleware verify1 db3 (Some (js "Bearer ")) (Some secret1)
    = (Reject 401 "No token provided", db3)
  ∧ authMiddleware verify1 db3 (Some (js "Bearer t1")) (Some (js "  "))
    = (Reject 500 "Server configuration error", db3)
  ∧ authMiddleware verify1 db3 (Some (js "Bearer t2")) (Some secret1)
    = (Reject 401 "Invalid token", db3).
Proof.
  split; [|split].
  - apply (proj1 (authMiddleware_refusals verify1 db3 (Some (js "Bearer ")) (Some secret1))).
    vm_compute; reflexivity.
  - apply (proj1 (proj2 (authMiddleware_refusals verify1 db3 (Some (js "Bearer t1"))
                           (Some (js "  "))))).
    + vm_compute; discriminate.
    + vm_compute; reflexivity.
  - apply (proj1 (proj2 (proj2 (authMiddleware_refusals verify1 db3 (Some (js "Bearer t2"))
                                  (Some secret1))))).
    + vm_compute; discriminate.
    + vm_compute; discriminate.
    + vm_compute; reflexivity.
Defined.

(** X21: a gate of [requireRole] lets a request through exactly when the
    user's role is one of the roles given, or the user is a
    content_creator and influencer or ugc_creator is among them; every
    other request is answered 403 with the roles listed. *)
Theorem requireRole_passes roles user :
  (requireRole roles user = Pass ↔
     ru_role user ∈ allowedRoles_of roles
     ∨ (ru_role user = content_creator
        ∧ (influencer ∈ allowedRoles_of roles ∨ ugc_creator ∈ allowedRoles_of roles)))
  ∧ (requireRole roles user ≠ Pass →
     requireRole roles user
     = Deny 403 (js "Access denied. One of these roles required: "
                 ++ join (js ", ") (allowedRoles_of roles) ++ js ".")).
Proof.
  unfold requireRole. fold (allowedRoles_of roles).
  set (allowed := allowedRoles_of roles). clearbody allowed.
  pose proof (includes_elem allowed influencer) as Hi.
  pose proof (includes_elem allowed ugc_creator) as Hu.
  pose proof (includes_elem allowed (ru_role user)) as Hr.
  destruct (includes allowed influencer), (includes allowed ugc_creator),
    (includes allowed (ru_role user)); case_bool_decide; cbn [andb negb];
    (split; [|done]); intuition (try done; try discriminate).
Qed.

(** X22: a content_creator cannot open a conversation, and nobody can open
    one with a content_creator: every such request is refused and writes
    nothing, although the gates of the influencer and creator routes let a
    content_creator through. *)
Theorem content_creator_cannot_chat st user participantId now1 now2 :
  ru_role user = content_creator
  ∨ (∃ pid pd, participantId = Some pid ∧ users st !! pid = Some pd
               ∧ role pd = content_creator) →
  (∃ status error,
     createOrGetConversation st user participantId now1 now2 = (Fail status error, st))
  ∧ (ru_role user = content_creator →
     requireRole (inl influencer) user = Pass ∧ requireRole (inl ugc_creator) user = Pass).
Proof.
  intros H. split.
  - unfold createOrGetConversation.
    destruct participantId as [[|c p]|]; [by eexists _, _|idtac|by eexists _, _].
    case_bool_decide; [by eexists _, _|].
    destruct (users st !! (c :: p)) as [pd|] eqn:Hu; [|by eexists _, _].
    destruct (existsb _ _) eqn:Hv; [|by eexists _, _]. exfalso.
    apply validCombinations_pairing in Hv. unfold pairing_rule in Hv.
    destruct H as [Hr|(pid & pd' & [= <-] & Hpd & Hr)].
    + rewrite Hr in Hv. by destruct Hv as [[? _]|[[?|?] _]].
    + rewrite Hu in Hpd. injection Hpd as <-. rewrite Hr in Hv.
      by destruct Hv as [[_ [?|?]]|[_ ?]].
  - intros Hr. unfold requireRole. rewrite Hr. by vm_compute.
Qed.

Lemma content_creator_cannot_chat_witness :
  ru_role (req_user_of_row di) = content_creator
  ∧ (∃ status error,
       createOrGetConversation db3 (req_user_of_row di) (Some (js "u1")) 40 41
       = (Fail status error, db3))
  ∧ requireRole (inl influencer) (req_user_of_row di) = Pass.
Proof.
  assert (R : ru_role (req_user_of_row di) = content_creator) by reflexivity.
  destruct (content_creator_cannot_chat db3 (req_user_of_row di) (Some (js "u1")) 40 41
              (or_introl R)) as [H1 H2].
  split; [exact R|]. split; [exact H1|exact (proj1 (H2 R))].
Defined.
